(** * Sollumz: the Codewalker XML object mapping ([resources/codewalker_xml.py])

    A shallow embedding of the typed XML layer: value coercion
    ([get_str_type]), the pretty-printer ([indent]), the property classes
    with their readers and writers, the generic [ElementTree] codec, and the
    attribute protocol of [ElementTree] instances
    ([__getattribute__] / [__setattr__]).

    Conventions.
    - A Python [str] is a Rocq [string]; a character is a code point below
      256, so [isspace] and [lower] are Python's restricted to Latin-1.
    - An exception is a value of [exn]; a call that may raise returns
      [result].
    - [float()], [int()], [str()] of a float and the [mathutils]
      constructors are not code of this repository: they are the fields of
      the class [Builtins], and every definition is parametric in them. *)

From Stdlib Require Import ZArith List Bool Ascii String Lia DecimalString.
Import ListNotations.
Open Scope string_scope.

Set Warnings "-register-all".

(** ** Python strings *)

Module PyStr.

Definition nl : string := String (ascii_of_nat 10) EmptyString.

(** [str.isspace] on one code point below 256. *)
Definition isspace (c : ascii) : bool :=
  let n := nat_of_ascii c in
  (((9 <=? n) && (n <=? 13)) || ((28 <=? n) && (n <=? 32))
   || (n =? 133) || (n =? 160))%nat.

(** [str.lower] on one code point below 256. *)
Definition lower_char (c : ascii) : ascii :=
  let n := nat_of_ascii c in
  if (((65 <=? n) && (n <=? 90))
      || ((192 <=? n) && (n <=? 222) && negb (n =? 215)))%nat
  then ascii_of_nat (n + 32) else c.

Fixpoint lower (s : string) : string :=
  match s with
  | EmptyString => EmptyString
  | String c s' => String (lower_char c) (lower s')
  end.

Definition is_empty (s : string) : bool :=
  match s with EmptyString => true | _ => false end.

Fixpoint lstrip (s : string) : string :=
  match s with
  | EmptyString => EmptyString
  | String c s' => if isspace c then lstrip s' else s
  end.

Fixpoint rstrip (s : string) : string :=
  match s with
  | EmptyString => EmptyString
  | String c s' =>
      let r := rstrip s' in
      if is_empty r && isspace c then EmptyString else String c r
  end.

(** [s.strip()] *)
Definition strip (s : string) : string := rstrip (lstrip s).

(** [s.split(sep)] for a one-character separator: never the empty list. *)
Fixpoint split (sep : ascii) (s : string) : list string :=
  match s with
  | EmptyString => [EmptyString]
  | String c s' =>
      if Ascii.eqb c sep then EmptyString :: split sep s'
      else match split sep s' with
           | h :: t => String c h :: t
           | [] => [String c EmptyString]
           end
  end.

(** [sep.join(l)] *)
Fixpoint join (sep : string) (l : list string) : string :=
  match l with
  | [] => EmptyString
  | [x] => x
  | x :: rest => x ++ sep ++ join sep rest
  end.

(** [s.find(c) != -1] for a one-character needle. *)
Fixpoint contains (c : ascii) (s : string) : bool :=
  match s with
  | EmptyString => false
  | String d s' => Ascii.eqb d c || contains c s'
  end.

(** [s.replace(c, '')] for a one-character needle. *)
Fixpoint remove (c : ascii) (s : string) : string :=
  match s with
  | EmptyString => EmptyString
  | String d s' => if Ascii.eqb d c then remove c s' else String d (remove c s')
  end.

(** [n * s] *)
Fixpoint times (n : nat) (s : string) : string :=
  match n with
  | O => EmptyString
  | S n' => s ++ times n' s
  end.

(** [str(n)] for an integer. *)
Definition of_Z (n : Z) : string := NilZero.string_of_int (Z.to_int n).

End PyStr.

Import PyStr.

Definition newline : ascii := ascii_of_nat 10.
Definition comma : ascii := ascii_of_nat 44.
Definition space : ascii := ascii_of_nat 32.

(** ** Exceptions and results *)

(** A [TypeError] carries no text: the code formats its messages from
    Python's [repr] of type objects, which is not modelled. *)
Inductive exn : Type :=
| ValueError (msg : string)
| TypeError
| AttributeError (msg : string).

Inductive result (A : Type) : Type :=
| Ok (a : A)
| Raise (e : exn).

Arguments Ok {A} a.
Arguments Raise {A} e.

Definition bind {A B : Type} (r : result A) (k : A -> result B) : result B :=
  match r with
  | Ok a => k a
  | Raise e => Raise e
  end.

Notation "x <- r ;; k" := (bind r (fun x => k))
  (at level 61, r at next level, right associativity).

Fixpoint mapM {A B : Type} (f : A -> result B) (l : list A) : result (list B) :=
  match l with
  | [] => Ok []
  | x :: rest => y <- f x ;; ys <- mapM f rest ;; Ok (y :: ys)
  end.

(** ** [xml.etree.ElementTree] *)

Module ET.

(** An element: tag, attributes in insertion order, text, tail, children. *)
Inductive Element : Type :=
| mkElement (tag : string) (attrib : list (string * string))
            (text tail : option string) (children : list Element).

Definition tag (e : Element) : string :=
  match e with mkElement t _ _ _ _ => t end.
Definition attrib (e : Element) : list (string * string) :=
  match e with mkElement _ a _ _ _ => a end.
Definition text (e : Element) : option string :=
  match e with mkElement _ _ x _ _ => x end.
Definition tail (e : Element) : option string :=
  match e with mkElement _ _ _ x _ => x end.
Definition children (e : Element) : list Element :=
  match e with mkElement _ _ _ _ c => c end.

(** [ET.Element(tag, attrib)] *)
Definition new (t : string) (a : list (string * string)) : Element :=
  mkElement t a None None [].

Fixpoint lookup (k : string) (a : list (string * string)) : option string :=
  match a with
  | [] => None
  | (k', v) :: rest => if String.eqb k' k then Some v else lookup k rest
  end.

(** [element.get(k)] *)
Definition get (k : string) (e : Element) : option string :=
  lookup k (attrib e).

(** [k in element.attrib] *)
Definition has (k : string) (e : Element) : bool :=
  match get k e with Some _ => true | None => false end.

Fixpoint update (k v : string) (a : list (string * string))
  : list (string * string) :=
  match a with
  | [] => [(k, v)]
  | (k', v') :: rest =>
      if String.eqb k' k then (k', v) :: rest else (k', v') :: update k v rest
  end.

(** [element.set(k, v)] *)
Definition set (k v : string) (e : Element) : Element :=
  match e with
  | mkElement t a x y c => mkElement t (update k v a) x y c
  end.

(** [element.text = x] *)
Definition set_text (x : option string) (e : Element) : Element :=
  match e with
  | mkElement t a _ y c => mkElement t a x y c
  end.

(** [element.append(child)] *)
Definition append (child : Element) (e : Element) : Element :=
  match e with
  | mkElement t a x y c => mkElement t a x y (c ++ [child])%list
  end.

(** [element.findall(t)] for a plain tag name: the matching children. *)
Definition findall (t : string) (e : Element) : list Element :=
  filter (fun c => String.eqb (tag c) t) (children e).

(** [element.find(t)] for a plain tag name: the first matching child. *)
Definition find (t : string) (e : Element) : option Element :=
  List.find (fun c => String.eqb (tag c) t) (children e).

End ET.

(** ** The pretty-printer *)

Definition amount : string := "  ".

(** [not s or not s.strip()] *)
Definition blank (s : option string) : bool :=
  match s with
  | None => true
  | Some s => is_empty s || is_empty (strip s)
  end.

(** [if not elem.tail or not elem.tail.strip(): elem.tail = i] *)
Definition retail (i : string) (e : ET.Element) : ET.Element :=
  match e with
  | ET.mkElement t a x y c =>
      ET.mkElement t a x (if blank y then Some i else y) c
  end.

Fixpoint map_last {A : Type} (f : A -> A) (l : list A) : list A :=
  match l with
  | [] => []
  | [x] => [f x]
  | x :: rest => x :: map_last f rest
  end.

(** The text of a childless element, lines 26 to 30 of the source. *)
Definition indent_text (level : nat) (x : option string) : option string :=
  match x with
  | Some t =>
      if negb (is_empty t) && (0 <? length (strip t))%nat
         && contains newline t
      then
        let lines := split newline (strip t) in
        let lines := map (fun line => times (level + 1) amount ++ line) lines in
        Some (nl ++ join nl lines ++ (nl ++ times level amount))
      else x
  | None => None
  end.

(** [indent(elem, level)]; the element is returned instead of mutated.
    After the loop over the children the name [elem] is bound to the last
    child, whose tail is the one the closing test rewrites. *)
Fixpoint indent (elem : ET.Element) (level : nat) : ET.Element :=
  match elem with
  | ET.mkElement t a x y c =>
      let i := nl ++ times level amount in
      match c with
      | _ :: _ =>
          let x' := if blank x then Some (i ++ amount) else x in
          let y' := if blank y then Some i else y in
          let c' := map (fun child => indent child (level + 1)) c in
          ET.mkElement t a x' y' (map_last (retail i) c')
      | [] =>
          let y' :=
            if negb (level =? 0)%nat && blank y then Some i else y in
          ET.mkElement t a (indent_text level x) y' []
      end
  end.

(** No childless element has a text whose stripped form spans lines. *)
Fixpoint one_line_leaves (elem : ET.Element) : bool :=
  match elem with
  | ET.mkElement _ _ x _ c =>
      match c with
      | [] =>
          match x with
          | Some t => negb (contains newline (strip t))
          | None => true
          end
      | _ :: _ => forallb one_line_leaves c
      end
  end.

(** The string [i] of [indent]. *)
Definition margin (level : nat) : string := nl ++ times level amount.

Fixpoint all_space (s : string) : bool :=
  match s with
  | EmptyString => true
  | String c s' => isspace c && all_space s'
  end.

(** ** What the code takes from Python and [mathutils] *)

Class Builtins : Type := {
  (** the type of Python floats *)
  pyfloat : Type;
  (** [float(s)]: a float, or the exception it raises *)
  py_float : string -> result pyfloat;
  (** [int(s)]: an integer, or the exception it raises *)
  py_int : string -> result Z;
  (** [str(x)] for a float *)
  str_float : pyfloat -> string;
  (** [bool(x)] for a float *)
  float_truthy : pyfloat -> bool;
  (** the float of an integer constant of the code, as in [Vector((0, 0, 0))] *)
  float_of_int : Z -> pyfloat;
  (** the rounding [mathutils] applies when it stores a component *)
  single : pyfloat -> pyfloat;
  (** the components w, x, y, z of [Quaternion((x, y, z), angle)] *)
  axis_angle : pyfloat -> pyfloat -> pyfloat -> pyfloat ->
               pyfloat * pyfloat * pyfloat * pyfloat
}.

(** An instance to run the definitions on examples: the floats with an
    integral value, written in decimal, with or without a fraction of
    zeros. *)
Module Integral.

Fixpoint digits (acc : Z) (s : string) : option Z :=
  match s with
  | EmptyString => Some acc
  | String c s' =>
      let n := nat_of_ascii c in
      if ((48 <=? n) && (n <=? 57))%nat
      then digits (10 * acc + Z.of_nat (n - 48)) s'
      else None
  end.

Definition natural (s : string) : option Z :=
  match s with
  | EmptyString => None
  | _ => digits 0 s
  end.

Definition integer (s : string) : option Z :=
  match s with
  | String c r =>
      if Ascii.eqb c "-" then option_map Z.opp (natural r)
      else if Ascii.eqb c "+" then natural r
      else natural s
  | EmptyString => None
  end.

Definition int (s : string) : result Z :=
  match integer (strip s) with
  | Some n => Ok n
  | None => Raise (ValueError "invalid literal for int() with base 10")
  end.

Definition float (s : string) : result Z :=
  let bad := Raise (ValueError "could not convert string to float") in
  match split "." (strip s) with
  | [whole] =>
      match integer whole with Some n => Ok n | None => bad end
  | [whole; fraction] =>
      match integer whole, digits 0 fraction with
      | Some n, Some 0%Z => Ok n
      | _, _ => bad
      end
  | _ => bad
  end.

Definition builtins : Builtins := {|
  pyfloat := Z;
  py_float := float;
  py_int := int;
  str_float := fun x => of_Z x ++ ".0";
  float_truthy := fun x => negb (x =? 0)%Z;
  float_of_int := fun n => n;
  single := fun x => x;
  axis_angle := fun x y z w => (w, x, y, z)
|}.

End Integral.

Section Codewalker.

Context {B : Builtins}.

Set Default Proof Using "Type".

(** [mathutils.Vector] of size three. *)
Record Vector : Type := mkVector { vx : pyfloat; vy : pyfloat; vz : pyfloat }.

(** [Vector((a, b, c))] *)
Definition Vector_of (a b c : pyfloat) : Vector :=
  mkVector (single a) (single b) (single c).

(** [mathutils.Quaternion] *)
Record Quaternion : Type :=
  mkQuaternion { qw : pyfloat; qx : pyfloat; qy : pyfloat; qz : pyfloat }.

(** [Quaternion((x, y, z), w)] *)
Definition Quaternion_of (x y z w : pyfloat) : Quaternion :=
  let '(w', x', y', z') := axis_angle x y z w in mkQuaternion w' x' y' z'.

(** ** Python values *)

Inductive pyvalue : Type :=
| PyNone
| PyBool (b : bool)
| PyInt (n : Z)
| PyFloat (x : pyfloat)
| PyStr (s : string)
| PyList (items : list pyvalue)
| PyVector (v : Vector)
| PyQuaternion (q : Quaternion)
| PyRef (r : nat).

(** [bool(v)] for every value that is not a reference; an object of the
    classes of this file defines neither [__bool__] nor [__len__], so a
    reference is truthy. *)
Definition truthy (v : pyvalue) : bool :=
  match v with
  | PyNone => false
  | PyBool b => b
  | PyInt n => negb (n =? 0)%Z
  | PyFloat x => float_truthy x
  | PyStr s => negb (is_empty s)
  | PyList items => match items with [] => false | _ => true end
  | PyVector _ => true
  | PyQuaternion _ => true
  | PyRef _ => true
  end.

(** ** Value coercion *)

(** [get_str_type(value)] *)
Definition get_str_type (value : pyvalue) : pyvalue :=
  match value with
  | PyStr s =>
      if String.eqb (lower s) "true" || String.eqb (lower s) "false"
      then PyBool (truthy (PyStr s))
      else match py_int s with
           | Ok n => PyInt n
           | Raise _ =>
               match py_float s with
               | Ok x => PyFloat x
               | Raise _ => value
               end
           end
  | _ => value
  end.

(** [str(v)]. For a list, a vector, a quaternion or an object Python's
    text depends on [repr] and on addresses: it is the parameter
    [str_other]. *)
Variable str_other : pyvalue -> string.

Definition py_str (v : pyvalue) : string :=
  match v with
  | PyNone => "None"
  | PyBool true => "True"
  | PyBool false => "False"
  | PyInt n => of_Z n
  | PyFloat x => str_float x
  | PyStr s => s
  | _ => str_other v
  end.

(** ** Elements of the object model

    The codec is modelled on instances whose values have the declared
    value types, which is what the constructors establish: text for a
    [TextProperty], a vector for a [VectorProperty], and so on. A
    [ValueProperty] and an [AttributeProperty] hold any Python value.

    A subclass of [ElementTree] is a [cls]: its name, its [tag_name] and
    the attributes its constructor creates, in creation order. *)

Inductive obj : Type :=
| TextProperty (tag_name : string) (value : string)
| VectorProperty (tag_name : string) (value : Vector)
| QuaternionProperty (tag_name : string) (value : Quaternion)
| ListProperty (list_type : cls) (tag_name : string) (value : list obj)
| VerticesProperty (tag_name : string) (value : list Vector)
| FlagsProperty (tag_name : string) (value : list string)
| ValueProperty (tag_name : string) (value : pyvalue)
| ElementTree (c : cls) (vars : list (string * field))
with cls : Type :=
| Class (name : string) (tag_name : string) (init : list (string * field))
with field : Type :=
| FElement (e : obj)
| FAttribute (name : string) (_value : pyvalue)
| FOther (v : pyvalue).

Definition cls_name (c : cls) : string :=
  match c with Class n _ _ => n end.
Definition cls_tag (c : cls) : string :=
  match c with Class _ t _ => t end.
Definition cls_init (c : cls) : list (string * field) :=
  match c with Class _ _ i => i end.

(** [element.tag_name] *)
Definition tag_name_of (o : obj) : string :=
  match o with
  | TextProperty t _ | VectorProperty t _ | QuaternionProperty t _
  | ListProperty _ t _ | VerticesProperty t _ | FlagsProperty t _
  | ValueProperty t _ => t
  | ElementTree c _ => cls_tag c
  end.

(** [AttributeProperty.value] *)
Definition AttributeProperty_value (_value : pyvalue) : pyvalue :=
  get_str_type _value.

(** [cls.read_value_error(element)] *)
Definition read_value_error {A : Type} (name : string) (element : ET.Element)
  : result A :=
  Raise (ValueError ("Invalid XML element '<" ++ ET.tag element
                     ++ " />' for type '" ++ name ++ "'!")).

(** [float(element.get(k))] *)
Definition float_attr (k : string) (element : ET.Element) : result pyfloat :=
  match ET.get k element with
  | Some s => py_float s
  | None => Raise TypeError
  end.

(** *** TextProperty *)

Definition TextProperty_from_xml (element : ET.Element) : result obj :=
  Ok (TextProperty (ET.tag element)
        (match ET.text element with
         | Some t => if is_empty t then EmptyString else t
         | None => EmptyString
         end)).

(** A keyword argument of [ET.Element] is an attribute. *)
Definition TextProperty_to_xml (tag_name value : string) : ET.Element :=
  ET.new tag_name [("text", value)].

(** *** VectorProperty *)

Definition VectorProperty_from_xml (element : ET.Element) : result obj :=
  if negb (forallb (fun x => ET.has x element) ["x"; "y"; "z"])
  then read_value_error "VectorProperty" element
  else
    x <- float_attr "x" element ;;
    y <- float_attr "y" element ;;
    z <- float_attr "z" element ;;
    Ok (VectorProperty (ET.tag element) (Vector_of x y z)).

Definition VectorProperty_to_xml (tag_name : string) (value : Vector)
  : ET.Element :=
  ET.new tag_name [("x", str_float (vx value)); ("y", str_float (vy value));
                   ("z", str_float (vz value))].

(** *** QuaternionProperty *)

Definition QuaternionProperty_from_xml (element : ET.Element) : result obj :=
  if negb (forallb (fun x => ET.has x element) ["x"; "y"; "z"; "w"])
  then read_value_error "QuaternionProperty" element
  else
    x <- float_attr "x" element ;;
    y <- float_attr "y" element ;;
    z <- float_attr "z" element ;;
    w <- float_attr "w" element ;;
    Ok (QuaternionProperty (ET.tag element) (Quaternion_of x y z w)).

Definition QuaternionProperty_to_xml (tag_name : string) (value : Quaternion)
  : ET.Element :=
  ET.new tag_name [("x", str_float (qx value)); ("y", str_float (qy value));
                   ("z", str_float (qz value)); ("w", str_float (qw value))].

(** *** VerticesProperty *)

(** The body of the loop over the lines of the text. *)
Definition read_vertex (element : ET.Element) (line : string) : result Vector :=
  match split comma (strip line) with
  | [c0; c1; c2] =>
      x <- py_float c0 ;; y <- py_float c1 ;; z <- py_float c2 ;;
      Ok (Vector_of x y z)
  | _ => read_value_error "VerticesProperty" element
  end.

Definition VerticesProperty_from_xml (element : ET.Element) : result obj :=
  match ET.text element with
  | None => Raise (AttributeError "'NoneType' object has no attribute 'strip'")
  | Some t =>
      let text := split newline (strip t) in
      value <- (if (0 <? List.length text)%nat
                then mapM (read_vertex element) text else Ok []) ;;
      Ok (VerticesProperty (ET.tag element) value)
  end.

Definition vertex_line (vertex : Vector) : string :=
  str_float (vx vertex) ++ ", " ++ str_float (vy vertex) ++ ", "
  ++ str_float (vz vertex) ++ nl.

Definition VerticesProperty_to_xml (tag_name : string) (value : list Vector)
  : ET.Element :=
  ET.set_text
    (Some (fold_left (fun text vertex => text ++ vertex_line vertex) value nl))
    (ET.new tag_name []).

(** *** FlagsProperty *)

Definition FlagsProperty_from_xml (element : ET.Element) : result obj :=
  match ET.text element with
  | Some t =>
      if negb (is_empty t) && (0 <? length (strip t))%nat
      then
        let text := split comma (remove space t) in
        if negb (0 <? List.length text)%nat
        then read_value_error "FlagsProperty" element
        else Ok (FlagsProperty (ET.tag element) text)
      else Ok (FlagsProperty (ET.tag element) [])
  | None => Ok (FlagsProperty (ET.tag element) [])
  end.

Definition FlagsProperty_to_xml (tag_name : string) (value : list string)
  : ET.Element :=
  if (0 <? List.length value)%nat
  then ET.set_text (Some (join ", " value)) (ET.new tag_name [])
  else ET.new tag_name [].

(** *** ValueProperty *)

Definition ValueProperty_from_xml (element : ET.Element) : result obj :=
  if negb (ET.has "value" element)
  then Raise (AttributeError
                "type object 'ValueError' has no attribute 'read_value_error'")
  else
    match ET.get "value" element with
    | Some v => Ok (ValueProperty (ET.tag element) (get_str_type (PyStr v)))
    | None => Ok (ValueProperty (ET.tag element) PyNone)
    end.

Definition ValueProperty_to_xml (tag_name : string) (value : pyvalue)
  : ET.Element :=
  ET.new tag_name [("value", py_str value)].

(** *** ListProperty and ElementTree *)

(** [issubclass(c, d)] for two subclasses of [ElementTree]. The document
    classes are declared in other files, and so is their hierarchy: it is a
    parameter. *)
Variable subclass : cls -> cls -> bool.

(** [isinstance(item, list_type)]: the class of the item is the list type
    or one of its subclasses. *)
Definition is_instance (item : obj) (list_type : cls) : bool :=
  match item with
  | ElementTree c _ => subclass c list_type
  | _ => false
  end.

(** [element.to_xml()], dispatched on the class of the element.
    [ListProperty.to_xml] and [ElementTree.to_xml] are its last two cases. *)
Fixpoint to_xml (o : obj) : result ET.Element :=
  match o with
  | TextProperty t v => Ok (TextProperty_to_xml t v)
  | VectorProperty t v => Ok (VectorProperty_to_xml t v)
  | QuaternionProperty t v => Ok (QuaternionProperty_to_xml t v)
  | VerticesProperty t v => Ok (VerticesProperty_to_xml t v)
  | FlagsProperty t v => Ok (FlagsProperty_to_xml t v)
  | ValueProperty t v => Ok (ValueProperty_to_xml t v)
  | ListProperty list_type t value =>
      (fix loop (items : list obj) (element : ET.Element)
         : result ET.Element :=
         match items with
         | [] => Ok element
         | item :: rest =>
             if is_instance item list_type
             then x <- to_xml item ;; loop rest (ET.append x element)
             else Raise TypeError
         end) value (ET.new t [])
  | ElementTree c vars =>
      (fix loop (children : list (string * field)) (root : ET.Element)
         : result ET.Element :=
         match children with
         | [] => Ok root
         | (_, child) :: rest =>
             match child with
             | FElement e => x <- to_xml e ;; loop rest (ET.append x root)
             | FAttribute name _value =>
                 loop rest
                   (ET.set name (py_str (AttributeProperty_value _value)) root)
             | FOther _ => loop rest root
             end
         end) vars (ET.new (cls_tag c) [])
  end.

Definition ElementTree_to_xml (c : cls) (vars : list (string * field))
  : result ET.Element :=
  to_xml (ElementTree c vars).

(** [cls.from_xml(element)] for a subclass [c] of [ElementTree]. The
    instance [cls()] starts from [cls_init c]; the loop visits its
    attributes in order and replaces the ones found in [element]. *)
Fixpoint ElementTree_from_xml (c : cls) (element : ET.Element) {struct c}
  : result obj :=
  match c with
  | Class _ tag init =>
      vars <-
        (fix loop (items : list (string * field))
           : result (list (string * field)) :=
           match items with
           | [] => Ok []
           | (prop_name, obj_element) :: rest =>
               x <-
                 match obj_element with
                 | FElement o =>
                     match ET.find (tag_name_of o) element with
                     | Some child =>
                         if String.eqb (tag_name_of o) (ET.tag child)
                         then
                           e <-
                             match o with
                             | TextProperty _ _ => TextProperty_from_xml child
                             | VectorProperty _ _ =>
                                 VectorProperty_from_xml child
                             | QuaternionProperty _ _ =>
                                 QuaternionProperty_from_xml child
                             | VerticesProperty _ _ =>
                                 VerticesProperty_from_xml child
                             | FlagsProperty _ _ => FlagsProperty_from_xml child
                             | ValueProperty _ _ => ValueProperty_from_xml child
                             | ListProperty list_type _ _ =>
                                 value <-
                                   mapM (ElementTree_from_xml list_type)
                                     (ET.findall (cls_tag list_type) child) ;;
                                 Ok (ListProperty list_type (ET.tag child) value)
                             | ElementTree c' _ => ElementTree_from_xml c' child
                             end ;;
                           Ok (FElement e)
                         else Ok obj_element
                     | None => Ok obj_element
                     end
                 | FAttribute name _ =>
                     if ET.has name element && String.eqb tag (ET.tag element)
                     then
                       Ok (FAttribute name
                             (match ET.get name element with
                              | Some v => PyStr v
                              | None => PyNone
                              end))
                     else Ok obj_element
                 | FOther _ => Ok obj_element
                 end ;;
               xs <- loop rest ;;
               Ok ((prop_name, x) :: xs)
           end) init ;;
      Ok (ElementTree c vars)
  end.

(** [ListProperty.from_xml] for a subclass whose [list_type] is [c]. *)
Definition ListProperty_from_xml (list_type : cls) (element : ET.Element)
  : result obj :=
  value <- mapM (ElementTree_from_xml list_type)
             (ET.findall (cls_tag list_type) element) ;;
  Ok (ListProperty list_type (ET.tag element) value).

(** The body of the loop of [ElementTree.from_xml], by name. *)

(** [type(obj_element).from_xml(child)] *)
Definition from_xml_as (o : obj) (child : ET.Element) : result obj :=
  match o with
  | TextProperty _ _ => TextProperty_from_xml child
  | VectorProperty _ _ => VectorProperty_from_xml child
  | QuaternionProperty _ _ => QuaternionProperty_from_xml child
  | VerticesProperty _ _ => VerticesProperty_from_xml child
  | FlagsProperty _ _ => FlagsProperty_from_xml child
  | ValueProperty _ _ => ValueProperty_from_xml child
  | ListProperty list_type _ _ => ListProperty_from_xml list_type child
  | ElementTree c _ => ElementTree_from_xml c child
  end.

Definition read_field (tag : string) (element : ET.Element)
  (obj_element : field) : result field :=
  match obj_element with
  | FElement o =>
      match ET.find (tag_name_of o) element with
      | Some child =>
          if String.eqb (tag_name_of o) (ET.tag child)
          then e <- from_xml_as o child ;; Ok (FElement e)
          else Ok obj_element
      | None => Ok obj_element
      end
  | FAttribute name _ =>
      if ET.has name element && String.eqb tag (ET.tag element)
      then
        Ok (FAttribute name
              (match ET.get name element with
               | Some v => PyStr v
               | None => PyNone
               end))
      else Ok obj_element
  | FOther _ => Ok obj_element
  end.

Fixpoint read_fields (tag : string) (element : ET.Element)
  (items : list (string * field)) : result (list (string * field)) :=
  match items with
  | [] => Ok []
  | (prop_name, obj_element) :: rest =>
      x <- read_field tag element obj_element ;;
      xs <- read_fields tag element rest ;;
      Ok ((prop_name, x) :: xs)
  end.

(** The attributes of an instance that are [AttributeProperty] objects. *)
Fixpoint attributes (vars : list (string * field))
  : list (string * (string * pyvalue)) :=
  match vars with
  | [] => []
  | (prop_name, FAttribute name v) :: rest =>
      (prop_name, (name, v)) :: attributes rest
  | _ :: rest => attributes rest
  end.

Definition vars_of (o : obj) : list (string * field) :=
  match o with
  | ElementTree _ vars => vars
  | _ => []
  end.

(** ** Objects with identity

    Attribute assignment is about which object is bound to a name, so the
    instances live in a heap and a value refers to them by address. *)

Inductive pytype : Type :=
| T_bool | T_int | T_float | T_str | T_list | T_Vector | T_Quaternion
| T_NoneType.

Definition pytype_eqb (t u : pytype) : bool :=
  match t, u with
  | T_bool, T_bool | T_int, T_int | T_float, T_float | T_str, T_str
  | T_list, T_list | T_Vector, T_Vector | T_Quaternion, T_Quaternion
  | T_NoneType, T_NoneType => true
  | _, _ => false
  end.

(** [issubclass(t, u)]: [bool] is a subclass of [int]. *)
Definition issubclass (t u : pytype) : bool :=
  pytype_eqb t u || (pytype_eqb t T_bool && pytype_eqb u T_int).

(** [type(v)], when [v] is not an object of the heap. *)
Definition type_of (v : pyvalue) : option pytype :=
  match v with
  | PyNone => Some T_NoneType
  | PyBool _ => Some T_bool
  | PyInt _ => Some T_int
  | PyFloat _ => Some T_float
  | PyStr _ => Some T_str
  | PyList _ => Some T_list
  | PyVector _ => Some T_Vector
  | PyQuaternion _ => Some T_Quaternion
  | PyRef _ => None
  end.

(** [isinstance(v, types)] for a tuple of the types above. *)
Definition isinstance (v : pyvalue) (types : list pytype) : bool :=
  match type_of v with
  | Some t => existsb (issubclass t) types
  | None => false
  end.

(** The subclasses of [ElementProperty]; a subclass of [ListProperty] is
    given by its name. *)
Inductive property_class : Type :=
| C_TextProperty | C_VectorProperty | C_QuaternionProperty
| C_ListProperty (name : string)
| C_VerticesProperty | C_FlagsProperty | C_ValueProperty.

Definition value_types (c : property_class) : list pytype :=
  match c with
  | C_TextProperty => [T_str]
  | C_VectorProperty => [T_Vector]
  | C_QuaternionProperty => [T_Quaternion]
  | C_ListProperty _ | C_VerticesProperty | C_FlagsProperty => [T_list]
  | C_ValueProperty => [T_int; T_str; T_bool; T_float]
  end.

Inductive object : Type :=
| OElementProperty (c : property_class) (tag_name : string) (value : pyvalue)
| OAttributeProperty (name : string) (_value : pyvalue)
| OElementTree (class_attrs : list (string * pyvalue))
               (vars : list (string * pyvalue)).

(** [ElementProperty.__init__(self, tag_name, value)]: the initialised
    object, or the exception. *)
Definition ElementProperty_init (c : property_class) (tag_name : string)
  (value : pyvalue) : result object :=
  if truthy value && negb (isinstance value (value_types c))
  then Raise TypeError
  else Ok (OElementProperty c tag_name value).

(** [a or b] *)
Definition py_or (a b : pyvalue) : pyvalue := if truthy a then a else b.

Definition zero_vector : Vector :=
  Vector_of (float_of_int 0) (float_of_int 0) (float_of_int 0).

Definition identity_quaternion : Quaternion :=
  Quaternion_of (float_of_int 0) (float_of_int 0) (float_of_int 0)
    (float_of_int 1).

(** The constructors of the subclasses. *)
Definition init (c : property_class) (tag_name : string) (value : pyvalue)
  : result object :=
  match c with
  | C_TextProperty =>
      ElementProperty_init c tag_name (py_or value (PyStr EmptyString))
  | C_VectorProperty =>
      ElementProperty_init c tag_name (py_or value (PyVector zero_vector))
  | C_QuaternionProperty =>
      ElementProperty_init c tag_name
        (py_or value (PyQuaternion identity_quaternion))
  | C_ListProperty _ | C_VerticesProperty | C_FlagsProperty =>
      ElementProperty_init c tag_name (py_or value (PyList []))
  | C_ValueProperty => ElementProperty_init c tag_name value
  end.

Definition heap : Type := list object.

Fixpoint store (h : heap) (r : nat) (o : object) : heap :=
  match h, r with
  | [], _ => []
  | _ :: rest, O => o :: rest
  | x :: rest, S r' => x :: store rest r' o
  end.

Fixpoint assoc (k : string) (d : list (string * pyvalue)) : option pyvalue :=
  match d with
  | [] => None
  | (k', v) :: rest => if String.eqb k' k then Some v else assoc k rest
  end.

(** [d[k] = v] on a dictionary in insertion order. *)
Fixpoint assign (k : string) (v : pyvalue) (d : list (string * pyvalue))
  : list (string * pyvalue) :=
  match d with
  | [] => [(k, v)]
  | (k', v') :: rest =>
      if String.eqb k' k then (k', v) :: rest else (k', v') :: assign k v rest
  end.

(** [isinstance(v, (ElementProperty, AttributeProperty))] *)
Definition is_property (h : heap) (v : pyvalue) : bool :=
  match v with
  | PyRef r =>
      match nth_error h r with
      | Some (OElementProperty _ _ _) | Some (OAttributeProperty _ _) => true
      | _ => false
      end
  | _ => false
  end.

(** [obj.value] for a property. *)
Definition value_of (h : heap) (obj : pyvalue) : pyvalue :=
  match obj with
  | PyRef r =>
      match nth_error h r with
      | Some (OElementProperty _ _ value) => value
      | Some (OAttributeProperty _ _value) => get_str_type _value
      | _ => PyNone
      end
  | _ => PyNone
  end.

(** [obj.value = value] for a property. *)
Definition set_value (value : pyvalue) (o : object) : object :=
  match o with
  | OElementProperty c t _ => OElementProperty c t value
  | OAttributeProperty n _ => OAttributeProperty n value
  | OElementTree _ _ => o
  end.

(** [object.__getattribute__(self, key)] on an instance of a subclass of
    [ElementTree]: the instance dictionary, then the attributes of the
    class; [None] is the [AttributeError]. *)
Definition object_getattribute (h : heap) (self : nat) (key : string)
  : option pyvalue :=
  match nth_error h self with
  | Some (OElementTree class_attrs vars) =>
      match assoc key vars with
      | Some v => Some v
      | None => assoc key class_attrs
      end
  | _ => None
  end.

(** [object.__setattr__(self, name, value)] *)
Definition object_setattr (h : heap) (self : nat) (name : string)
  (value : pyvalue) : heap :=
  match nth_error h self with
  | Some (OElementTree class_attrs vars) =>
      store h self (OElementTree class_attrs (assign name value vars))
  | _ => h
  end.

(** [ElementTree.__getattribute__(self, key, onlyValue)] *)
Definition ElementTree_getattribute (h : heap) (self : nat) (key : string)
  (onlyValue : bool) : pyvalue :=
  match object_getattribute h self key with
  | Some obj =>
      if is_property h obj && onlyValue then value_of h obj else obj
  | None => PyNone
  end.

(** [ElementTree.__setattr__(self, name, value)] *)
Definition ElementTree_setattr (h : heap) (self : nat) (name : string)
  (value : pyvalue) : heap :=
  let obj := ElementTree_getattribute h self name false in
  if truthy obj && is_property h obj && negb (is_property h value)
  then
    match obj with
    | PyRef r =>
        match nth_error h r with
        | Some o => object_setattr (store h r (set_value value o)) self name obj
        | None => h
        end
    | _ => h
    end
  else object_setattr h self name value.

(** ** Views of the data, to state what the code keeps *)

(** A text or a tail with something other than spaces in it. *)
Definition significant (s : option string) : option string :=
  if blank s then None else s.

(** A tree without its layout: tags, attributes and children as they are,
    the tails and the texts of the elements with children when they are
    significant; the text of a childless element is left out. *)
Fixpoint content (elem : ET.Element) : ET.Element :=
  match elem with
  | ET.mkElement t a x y c =>
      ET.mkElement t a
        (match c with [] => None | _ :: _ => significant x end)
        (significant y) (map content c)
  end.

(** The loops of [to_xml], by name. *)

Fixpoint write_items (list_type : cls) (items : list obj)
  (element : ET.Element) : result ET.Element :=
  match items with
  | [] => Ok element
  | item :: rest =>
      if is_instance item list_type
      then x <- to_xml item ;; write_items list_type rest (ET.append x element)
      else Raise TypeError
  end.

Fixpoint write_fields (children : list (string * field)) (root : ET.Element)
  : result ET.Element :=
  match children with
  | [] => Ok root
  | (_, child) :: rest =>
      match child with
      | FElement e => x <- to_xml e ;; write_fields rest (ET.append x root)
      | FAttribute name _value =>
          write_fields rest
            (ET.set name (py_str (AttributeProperty_value _value)) root)
      | FOther _ => write_fields rest root
      end
  end.

(** The attributes of an instance that are elements. *)
Fixpoint elements (vars : list (string * field)) : list (string * obj) :=
  match vars with
  | [] => []
  | (prop_name, FElement o) :: rest => (prop_name, o) :: elements rest
  | _ :: rest => elements rest
  end.

(** The XML attributes after the [AttributeProperty] objects were set, in
    order, on an element that had the attributes [a]. *)
Definition written_attrib (vars : list (string * field))
  (a : list (string * string)) : list (string * string) :=
  fold_left
    (fun a p => ET.update (fst (snd p)) (py_str (get_str_type (snd (snd p)))) a)
    (attributes vars) a.

(** Two objects of one class: the same property class, or instances of
    classes of one name. *)
Definition same_class (d o : obj) : bool :=
  match d, o with
  | TextProperty _ _, TextProperty _ _
  | VectorProperty _ _, VectorProperty _ _
  | QuaternionProperty _ _, QuaternionProperty _ _
  | VerticesProperty _ _, VerticesProperty _ _
  | FlagsProperty _ _, FlagsProperty _ _
  | ValueProperty _ _, ValueProperty _ _ => true
  | ListProperty c _ _, ListProperty c' _ _
  | ElementTree c _, ElementTree c' _ => String.eqb (cls_name c) (cls_name c')
  | _, _ => false
  end.

(** What reading keeps of an attribute of the instance: the class and the
    tag of an element, the name of an [AttributeProperty], anything else
    whole. *)
Definition same_field (f g : field) : Prop :=
  match f, g with
  | FElement d, FElement o =>
      same_class d o = true /\ tag_name_of o = tag_name_of d
  | FAttribute n _, FAttribute m _ => n = m
  | FOther v, FOther w => v = w
  | _, _ => False
  end.

(** An attribute [g] of an instance, beside the attribute [f] the
    constructor creates under the same name, comes back from a round trip:
    an element is written, and read as itself by the reader of its class; an
    [AttributeProperty] holds the text Python prints for its value. *)
Definition field_round_trips (f g : field) : Prop :=
  match f, g with
  | FElement d, FElement o =>
      tag_name_of d = tag_name_of o
      /\ exists e, to_xml o = Ok e /\ from_xml_as d e = Ok o
  | FAttribute n _, FAttribute m v =>
      n = m /\ v = PyStr (py_str (get_str_type v))
  | FOther v, FOther w => v = w
  | _, _ => False
  end.

(** [isinstance(v, ElementProperty)] *)
Definition is_element_property (h : heap) (v : pyvalue) : bool :=
  match v with
  | PyRef r =>
      match nth_error h r with
      | Some (OElementProperty _ _ _) => true
      | _ => false
      end
  | _ => false
  end.

(** [ElementTree.get_element(self, key)]; a function that ends without
    [return] gives [None]. *)
Definition ElementTree_get_element (h : heap) (self : nat) (key : string)
  : pyvalue :=
  let obj := ElementTree_getattribute h self key false in
  if is_element_property h obj then obj else PyNone.

(** Not empty, and with no space at either end. *)
Definition trimmed (s : string) : Prop :=
  s <> EmptyString /\ strip s = s.

(** A line of the text of a [VerticesProperty], without its newline. *)
Definition vertex_text (vertex : Vector) : string :=
  str_float (vx vertex) ++ ", " ++ str_float (vy vertex) ++ ", "
  ++ str_float (vz vertex).

(** What the round trip of a component asks of Python: storing the stored
    component does not change it, its text is one token, and [float] reads
    the token back, also after a space. *)
Definition prints_as_token (c : pyfloat) : Prop :=
  single c = c
  /\ py_float (str_float c) = Ok c
  /\ py_float (" " ++ str_float c) = Ok c
  /\ trimmed (str_float c)
  /\ contains comma (str_float c) = false
  /\ contains newline (str_float c) = false.

(** Every [ListProperty] inside the object holds instances of its list
    type only. *)
Fixpoint lists_hold_instances (o : obj) : bool :=
  match o with
  | ListProperty list_type _ value =>
      forallb (fun item => is_instance item list_type
                           && lists_hold_instances item) value
  | ElementTree _ vars =>
      forallb (fun child =>
                 match child with
                 | (_, FElement e) => lists_hold_instances e
                 | _ => true
                 end) vars
  | _ => true
  end.

(** A tree without the texts that span lines: the text of a childless
    element is left out when its stripped form contains a newline. *)
Fixpoint outside_multiline (elem : ET.Element) : ET.Element :=
  match elem with
  | ET.mkElement t a x y c =>
      match c with
      | [] =>
          ET.mkElement t a
            (match x with
             | Some s => if contains newline (strip s) then None else x
             | None => None
             end) y []
      | _ :: _ => ET.mkElement t a x y (map outside_multiline c)
      end
  end.

(** [s] with [p] put after each of its newlines. *)
Fixpoint after_newlines (p s : string) : string :=
  match s with
  | EmptyString => EmptyString
  | String c s' =>
      if Ascii.eqb c newline
      then String c (p ++ after_newlines p s')
      else String c (after_newlines p s')
  end.

(** The value a constructor puts in the place of a falsy one; the
    constructor of [ValueProperty] has none. *)
Definition class_default (c : property_class) : option pyvalue :=
  match c with
  | C_TextProperty => Some (PyStr EmptyString)
  | C_VectorProperty => Some (PyVector zero_vector)
  | C_QuaternionProperty => Some (PyQuaternion identity_quaternion)
  | C_ListProperty _ | C_VerticesProperty | C_FlagsProperty => Some (PyList [])
  | C_ValueProperty => None
  end.

(** A hierarchy for the examples: classes of different names, none a
    subclass of another. *)
Definition by_name (c d : cls) : bool :=
  String.eqb (cls_name c) (cls_name d).

(** ** Examples *)

(** A childless element with two lines of text. *)
Definition two_line_leaf : ET.Element :=
  ET.mkElement "Vertices" [] (Some ("1, 2, 3" ++ nl ++ "4, 5, 6")) None [].

(** An element with one child, each with one line of text at most. *)
Definition small_tree : ET.Element :=
  ET.mkElement "Item" [] None None
    [ET.mkElement "Name" [] (Some "prop_tree") None []].

(** A document class with an attribute, a text and a vector. *)
Definition Entity : cls :=
  Class "Entity" "Item"
    [("type", FAttribute "type" (PyStr "CEntityDef"));
     ("archetype_name", FElement (TextProperty "archetypeName" EmptyString));
     ("position", FElement (VectorProperty "position" zero_vector))].

(** An element that an [Entity] could read, under another root tag. *)
Definition wrong_root : ET.Element :=
  ET.mkElement "Other" [("type", "CMloInstanceDef")] None None
    [ET.mkElement "position" [("x", "1"); ("y", "2"); ("z", "3")]
       None None []].

(** An instance at address 0 whose attribute [name] is the property at
    address 1 and whose attribute [type] is the one at address 2. *)
Definition small_heap : heap :=
  [OElementTree [("tag_name", PyStr "Item")]
     [("name", PyRef 1); ("type", PyRef 2)];
   OElementProperty C_TextProperty "Name" (PyStr "prop_tree");
   OAttributeProperty "type" (PyStr "CEntityDef")].

(** A text for the values whose [str] is a parameter. *)
Definition object_text (v : pyvalue) : string := "<object>".

(** A document class with an attribute, flags and a vector, and the
    attributes of one of its instances. *)
Definition Portal : cls :=
  Class "Portal" "Item"
    [("type", FAttribute "type" (PyStr "CMloPortalDefData"));
     ("flags", FElement (FlagsProperty "Flags" []));
     ("position", FElement (VectorProperty "position" zero_vector))].

Definition portal_vars : list (string * field) :=
  [("type", FAttribute "type" (PyStr "CPortal"));
   ("flags", FElement (FlagsProperty "Flags" ["A"; "B"]));
   ("position",
    FElement (VectorProperty "position"
                (Vector_of (float_of_int 1) (float_of_int 2)
                   (float_of_int 3))))].

(** Two instances, at addresses 0 and 1, that share the property object at
    address 2. *)
Definition shared_heap : heap :=
  [OElementTree [] [("name", PyRef 2)];
   OElementTree [] [("label", PyRef 2)];
   OElementProperty C_TextProperty "Name" (PyStr "prop_tree")].

(** * Properties *)

(** ** Strings *)

Lemma append_empty_r (s : string) : s ++ EmptyString = s.
Proof. induction s; simpl; congruence. Qed.

Lemma append_assoc (a b c : string) : (a ++ b) ++ c = a ++ (b ++ c).
Proof. induction a; simpl; congruence. Qed.

Lemma all_space_app (a b : string) :
  all_space (a ++ b) = all_space a && all_space b.
Proof.
  induction a as [|c a IH]; simpl; [reflexivity|].
  rewrite IH. apply andb_assoc.
Qed.

Lemma all_space_times (n : nat) : all_space (times n amount) = true.
Proof. induction n; simpl; auto. Qed.

Lemma lstrip_all_space (w s : string) :
  all_space w = true -> lstrip (w ++ s) = lstrip s.
Proof.
  induction w as [|c w IH]; simpl; intros H; [reflexivity|].
  apply andb_true_iff in H as [Hc Hw]. rewrite Hc. auto.
Qed.

Lemma rstrip_all_space (w : string) :
  all_space w = true -> rstrip w = EmptyString.
Proof.
  induction w as [|c w IH]; simpl; intros H; [reflexivity|].
  apply andb_true_iff in H as [Hc Hw]. rewrite (IH Hw), Hc. reflexivity.
Qed.

Lemma rstrip_app_all_space (s w : string) :
  all_space w = true -> rstrip (s ++ w) = rstrip s.
Proof.
  intros H. induction s as [|c s IH]; simpl.
  - now apply rstrip_all_space.
  - now rewrite IH.
Qed.

Lemma rstrip_idempotent (s : string) : rstrip (rstrip s) = rstrip s.
Proof.
  induction s as [|c s IH]; simpl; [reflexivity|].
  destruct (is_empty (rstrip s) && isspace c) eqn:E; simpl.
  - reflexivity.
  - now rewrite IH, E.
Qed.

Lemma strip_all_space (w : string) :
  all_space w = true -> strip w = EmptyString.
Proof.
  intros H. unfold strip.
  rewrite <- (append_empty_r w), (lstrip_all_space _ _ H). reflexivity.
Qed.

(** A stripped string is empty or starts with a character that is not a
    space. *)
Lemma lstrip_head (s : string) :
  match lstrip s with
  | EmptyString => True
  | String c _ => isspace c = false
  end.
Proof.
  induction s as [|c s IH]; simpl; [exact I|].
  destruct (isspace c) eqn:E; simpl; auto.
Qed.

Lemma rstrip_head (s : string) :
  match rstrip s with
  | EmptyString => True
  | String c _ => exists s', s = String c s'
  end.
Proof.
  destruct s as [|c s]; simpl; [exact I|].
  destruct (is_empty (rstrip s) && isspace c); simpl; eauto.
Qed.

Lemma strip_head (s : string) :
  match strip s with
  | EmptyString => True
  | String c _ => isspace c = false
  end.
Proof.
  unfold strip.
  pose proof (lstrip_head s) as Hl. pose proof (rstrip_head (lstrip s)) as Hr.
  destruct (rstrip (lstrip s)) as [|c r]; [exact I|].
  destruct Hr as [s' Hs]. rewrite Hs in Hl. exact Hl.
Qed.

(** Stripping a stripped string between two runs of spaces gives it back. *)
Lemma strip_padded (w1 w2 s : string) :
  all_space w1 = true -> all_space w2 = true ->
  strip (w1 ++ strip s ++ w2) = strip s.
Proof.
  intros H1 H2. unfold strip at 1. rewrite (lstrip_all_space _ _ H1).
  pose proof (strip_head s) as Hh.
  destruct (strip s) as [|c r] eqn:E.
  - simpl. rewrite <- (append_empty_r w2), (lstrip_all_space _ _ H2). reflexivity.
  - cbn [append lstrip]. rewrite Hh.
    change (String c (r ++ w2)) with (String c r ++ w2).
    rewrite (rstrip_app_all_space _ _ H2), <- E.
    unfold strip. apply rstrip_idempotent.
Qed.

Lemma split_no_separator (sep : ascii) (s : string) :
  contains sep s = false -> split sep s = [s].
Proof.
  induction s as [|c s IH]; simpl; intros H; [reflexivity|].
  apply orb_false_iff in H as [Hc Hs]. rewrite Hc, (IH Hs). reflexivity.
Qed.

Lemma is_empty_length (s : string) :
  is_empty s = negb (0 <? length s)%nat.
Proof. destruct s; reflexivity. Qed.

(** ** The pretty-printer *)

Lemma Element_ind_children (P : ET.Element -> Prop) :
  (forall t a x y c, Forall P c -> P (ET.mkElement t a x y c)) ->
  forall e, P e.
Proof.
  intros step. fix IH 1. intros [t a x y c]. apply step.
  induction c as [|child c IHc]; constructor; [apply IH | exact IHc].
Qed.

Lemma all_space_margin (level : nat) : all_space (margin level) = true.
Proof. unfold margin. cbn. apply all_space_times. Qed.

Lemma blank_margin (level : nat) : blank (Some (margin level)) = true.
Proof.
  unfold blank. rewrite (strip_all_space _ (all_space_margin level)).
  apply orb_true_r.
Qed.

Lemma blank_margin_amount (level : nat) :
  blank (Some (margin level ++ amount)) = true.
Proof.
  unfold blank. rewrite strip_all_space; [apply orb_true_r|].
  rewrite all_space_app, all_space_margin. reflexivity.
Qed.

(** Setting a blank tail twice is setting it once. *)
Lemma refill_blank (i : string) (y : option string) :
  blank (Some i) = true ->
  (if blank (if blank y then Some i else y) then Some i
   else (if blank y then Some i else y))
  = (if blank y then Some i else y).
Proof.
  intros Hi. destruct (blank y) eqn:E.
  - now rewrite Hi.
  - now rewrite E.
Qed.

(** Below the root, [indent] overwrites a blank tail, so it does not see
    what an earlier pass wrote there. *)
Lemma indent_retail (j : string) (e : ET.Element) (level : nat) :
  blank (Some j) = true ->
  indent (retail j e) (S level) = indent e (S level).
Proof.
  intros Hj. destruct e as [t a x y c]. cbn [retail].
  assert (Hy : forall i : string,
             (if blank (if blank y then Some j else y) then Some i
              else (if blank y then Some j else y))
             = (if blank y then Some i else y)).
  { intros i. destruct (blank y) eqn:E; [now rewrite Hj | now rewrite E]. }
  destruct c as [|child c]; cbn [indent]; cbn [Nat.eqb negb andb].
  - now rewrite Hy.
  - now rewrite Hy.
Qed.

Lemma map_map_last {A : Type} (f g : A -> A) (l : list A) :
  (forall x, f (g x) = f x) -> map f (map_last g l) = map f l.
Proof.
  intros H. induction l as [|x [|y l] IH]; cbn [map_last map] in *.
  - reflexivity.
  - now rewrite H.
  - now rewrite IH.
Qed.

Lemma map_last_nonempty {A : Type} (f : A -> A) (l : list A) :
  l <> [] -> map_last f l <> [].
Proof. destruct l as [|x [|y l]]; cbn; congruence. Qed.

Lemma indent_text_one_line (level : nat) (t : string) :
  contains newline (strip t) = false ->
  (negb (is_empty t) && (0 <? length (strip t))%nat
   && contains newline t) = true ->
  indent_text level (Some t)
  = Some (nl ++ (times (level + 1) amount ++ strip t) ++ margin level).
Proof.
  intros Hone E. unfold indent_text. rewrite E.
  rewrite (split_no_separator _ _ Hone). reflexivity.
Qed.

Lemma indent_text_idempotent (level : nat) (x : option string) :
  match x with
  | Some t => contains newline (strip t) = false
  | None => True
  end ->
  indent_text level (indent_text level x) = indent_text level x.
Proof.
  destruct x as [t|]; [|reflexivity]. intros Hone.
  destruct (negb (is_empty t) && (0 <? length (strip t))%nat
            && contains newline t) eqn:E.
  - rewrite (indent_text_one_line _ _ Hone E).
    set (pre := times (level + 1) amount).
    assert (Hs : strip (nl ++ (pre ++ strip t) ++ margin level) = strip t).
    { rewrite append_assoc, <- append_assoc.
      apply strip_padded; [|apply all_space_margin].
      rewrite all_space_app. unfold pre. now rewrite all_space_times. }
    rewrite <- Hs at 2.
    apply indent_text_one_line.
    + now rewrite Hs.
    + rewrite Hs. apply andb_true_iff in E as [E _].
      apply andb_true_iff in E as [_ Hlen]. rewrite Hlen. reflexivity.
  - unfold indent_text at 2. rewrite E. unfold indent_text. now rewrite E.
Qed.

Lemma indent_idempotent_below (e : ET.Element) :
  one_line_leaves e = true ->
  forall level, indent (indent e level) level = indent e level.
Proof.
  induction e as [t a x y c IH] using Element_ind_children.
  intros Hone level. destruct c as [|child c].
  - cbn [indent]. f_equal.
    + apply indent_text_idempotent. cbn in Hone.
      destruct x; [now apply negb_true_iff in Hone | exact I].
    + fold (margin level). destruct level as [|level]; [reflexivity|].
      cbn [Nat.eqb negb andb]. apply refill_blank, blank_margin.
  - cbn [one_line_leaves] in Hone.
    set (kids := child :: c) in *.
    assert (Hkids : kids <> []) by (unfold kids; congruence).
    assert (Hmap : forall l : list ET.Element,
               l <> [] ->
               map_last (retail (margin level))
                 (map (fun k => indent k (level + 1)) l) <> []).
    { intros l Hl. apply map_last_nonempty. destruct l; cbn; congruence. }
    assert (Hstep : indent (ET.mkElement t a x y kids) level
                    = ET.mkElement t a
                        (if blank x then Some (margin level ++ amount) else x)
                        (if blank y then Some (margin level) else y)
                        (map_last (retail (margin level))
                           (map (fun k => indent k (level + 1)) kids))).
    { unfold kids. reflexivity. }
    rewrite Hstep.
    remember (map_last (retail (margin level))
                (map (fun k => indent k (level + 1)) kids)) as kids' eqn:Ek.
    assert (Hk' : kids' <> []) by (subst kids'; now apply Hmap).
    destruct kids' as [|k1 ks]; [congruence|].
    cbn [indent]. fold (margin level).
    rewrite (refill_blank _ _ (blank_margin level)).
    rewrite (refill_blank _ _ (blank_margin_amount level)).
    f_equal. rewrite Ek.
    replace (level + 1)%nat with (S level) by lia.
    rewrite map_map_last
      by (intros k; apply indent_retail, blank_margin).
    rewrite map_map. f_equal.
    apply map_ext_in. intros k Hin.
    rewrite Forall_forall in IH. apply IH; [exact Hin|].
    rewrite forallb_forall in Hone. now apply Hone.
Qed.

(** C4, as stated, fails: on a childless element with two lines of text the
    second pass indents the second line once more. *)
Lemma indent_twice_differs :
  indent (indent two_line_leaf 0) 0 <> indent two_line_leaf 0.
Proof. vm_compute. intros H. discriminate H. Qed.

(** What the two passes print on that element. *)
Lemma indent_two_line_leaf :
  ET.text (indent two_line_leaf 0)
  = Some (nl ++ "  1, 2, 3" ++ nl ++ "  4, 5, 6" ++ nl)
  /\ ET.text (indent (indent two_line_leaf 0) 0)
     = Some (nl ++ "  1, 2, 3" ++ nl ++ "    4, 5, 6" ++ nl).
Proof. split; reflexivity. Qed.

(** ** Value coercion *)

Lemma get_str_type_true_literal (s : string) :
  lower s = "true" -> get_str_type (PyStr s) = PyBool true.
Proof.
  intros H. unfold get_str_type. rewrite H.
  destruct s; [discriminate H | reflexivity].
Qed.

(** A string that is no boolean literal goes to [int], then to [float],
    then stays a string. *)
Lemma get_str_type_not_literal (s : string) :
  lower s <> "true" -> lower s <> "false" ->
  get_str_type (PyStr s)
  = match py_int s with
    | Ok n => PyInt n
    | Raise _ =>
        match py_float s with
        | Ok x => PyFloat x
        | Raise _ => PyStr s
        end
    end.
Proof.
  intros Ht Hf. unfold get_str_type.
  apply String.eqb_neq in Ht, Hf. now rewrite Ht, Hf.
Qed.

Lemma get_str_type_not_str (v : pyvalue) :
  type_of v <> Some T_str -> get_str_type v = v.
Proof. destruct v; cbn; congruence. Qed.

(** C1, the code at the failing input. Every casing of the literal false is
    coerced to the boolean true: the test for the literal is followed by
    [bool(value)], which is true of every string that is not empty. *)
Theorem get_str_type_false_literal (s : string) :
  lower s = "false" -> get_str_type (PyStr s) = PyBool true.
Proof.
  intros H. unfold get_str_type. rewrite H.
  destruct s; [discriminate H | reflexivity].
Qed.

(** ** Readers and writers of the properties *)

(** C5, the code on an element without the attribute. The read fails, and
    with an [AttributeError]: line 341 asks the builtin [ValueError] for
    [read_value_error], where its siblings ask their own class. The error
    names neither the tag nor the class. *)
Theorem ValueProperty_from_xml_missing_value (element : ET.Element) :
  ET.has "value" element = false ->
  ValueProperty_from_xml element
  = Raise (AttributeError
             "type object 'ValueError' has no attribute 'read_value_error'").
Proof. intros H. unfold ValueProperty_from_xml. now rewrite H. Qed.

(** What the sibling does: a vector element without one of its attributes
    fails with the [ValueError] of [read_value_error], which names the tag
    and the class. *)
Lemma VectorProperty_from_xml_missing (element : ET.Element) :
  forallb (fun x => ET.has x element) ["x"; "y"; "z"] = false ->
  VectorProperty_from_xml element
  = Raise (ValueError ("Invalid XML element '<" ++ ET.tag element
                       ++ " />' for type 'VectorProperty'!")).
Proof. intros H. unfold VectorProperty_from_xml. now rewrite H. Qed.

Lemma read_vertex_empty (element : ET.Element) (line : string) :
  strip line = EmptyString ->
  read_vertex element line = read_value_error "VerticesProperty" element.
Proof. intros H. unfold read_vertex. now rewrite H. Qed.

Lemma VerticesProperty_from_xml_blank (element : ET.Element) :
  blank (ET.text element) = true ->
  exists e, VerticesProperty_from_xml element = Raise e.
Proof.
  unfold VerticesProperty_from_xml, blank.
  destruct (ET.text element) as [t|]; [|eauto]. intros H.
  assert (Hs : strip t = EmptyString).
  { destruct t; [reflexivity|]. cbn [is_empty orb] in H.
    destruct (strip (String a t)); [reflexivity | discriminate H]. }
  rewrite Hs. cbn. eauto.
Qed.

(** C10. Reading a [VerticesProperty] fails on every element whose text is
    absent, empty or made of spaces only; the element written for the empty
    list has a single newline for text, so reading it back fails. *)
Theorem VerticesProperty_blank_text_fails :
  (forall element,
      blank (ET.text element) = true ->
      exists e, VerticesProperty_from_xml element = Raise e)
  /\ (forall tag_name,
         ET.text (VerticesProperty_to_xml tag_name []) = Some nl
         /\ exists e,
             VerticesProperty_from_xml (VerticesProperty_to_xml tag_name [])
             = Raise e).
Proof.
  split; [exact VerticesProperty_from_xml_blank|].
  intros t. split; [reflexivity|].
  now apply VerticesProperty_from_xml_blank.
Qed.

Lemma read_vertex_tokens (element : ET.Element) (line c0 c1 c2 : string)
  (x y z : pyfloat) :
  split comma (strip line) = [c0; c1; c2] ->
  py_float c0 = Ok x -> py_float c1 = Ok y -> py_float c2 = Ok z ->
  read_vertex element line = Ok (Vector_of x y z).
Proof.
  intros Hs Hx Hy Hz. unfold read_vertex. rewrite Hs, Hx, Hy, Hz. reflexivity.
Qed.

Lemma VerticesProperty_from_xml_lines (element : ET.Element) (t : string)
  (line : string) (lines : list string) :
  ET.text element = Some t ->
  split newline (strip t) = line :: lines ->
  VerticesProperty_from_xml element
  = value <- mapM (read_vertex element) (line :: lines) ;;
    Ok (VerticesProperty (ET.tag element) value).
Proof.
  intros Ht Hs. unfold VerticesProperty_from_xml. rewrite Ht, Hs. reflexivity.
Qed.

(** C6. With [f1] to [f6] the floats Python reads from the six tokens, the
    text of two lines reads as the two vectors; if Python prints their
    stored components as 1.0 to 6.0 and reads those back, the two vectors
    are written as one line of three components each, and that text reads as
    the same two vectors. *)
Theorem VerticesProperty_two_lines (tag_name : string)
  (f1 f2 f3 f4 f5 f6 : pyfloat) :
  map py_float ["1"; " 2"; " 3"; "4"; " 5"; " 6"]
  = map Ok [f1; f2; f3; f4; f5; f6] ->
  map (fun x => str_float (single x)) [f1; f2; f3; f4; f5; f6]
  = ["1.0"; "2.0"; "3.0"; "4.0"; "5.0"; "6.0"] ->
  map py_float ["1.0"; " 2.0"; " 3.0"; "4.0"; " 5.0"; " 6.0"]
  = map Ok [f1; f2; f3; f4; f5; f6] ->
  let value := [Vector_of f1 f2 f3; Vector_of f4 f5 f6] in
  let written :=
    ET.mkElement tag_name []
      (Some (nl ++ "1.0, 2.0, 3.0" ++ nl ++ "4.0, 5.0, 6.0" ++ nl)) None [] in
  VerticesProperty_from_xml
    (ET.mkElement tag_name []
       (Some ("1, 2, 3" ++ nl ++ "4, 5, 6" ++ nl)) None [])
  = Ok (VerticesProperty tag_name value)
  /\ VerticesProperty_to_xml tag_name value = written
  /\ VerticesProperty_from_xml written = Ok (VerticesProperty tag_name value).
Proof.
  intros Hread Hstr Hback value written.
  cbn [map] in Hread, Hstr, Hback.
  injection Hread as R1 R2 R3 R4 R5 R6.
  injection Hstr as S1 S2 S3 S4 S5 S6.
  injection Hback as B1 B2 B3 B4 B5 B6.
  repeat split.
  - erewrite VerticesProperty_from_xml_lines
      with (line := "1, 2, 3") (lines := ["4, 5, 6"]);
      [|reflexivity | vm_compute; reflexivity].
    cbn [mapM].
    rewrite (read_vertex_tokens _ "1, 2, 3" "1" " 2" " 3" f1 f2 f3)
      by (assumption || (vm_compute; reflexivity)).
    rewrite (read_vertex_tokens _ "4, 5, 6" "4" " 5" " 6" f4 f5 f6)
      by (assumption || (vm_compute; reflexivity)).
    reflexivity.
  - unfold written, value, VerticesProperty_to_xml, vertex_line, Vector_of.
    cbn [fold_left vx vy vz]. rewrite S1, S2, S3, S4, S5, S6. reflexivity.
  - unfold written.
    erewrite VerticesProperty_from_xml_lines
      with (line := "1.0, 2.0, 3.0") (lines := ["4.0, 5.0, 6.0"]);
      [|reflexivity | vm_compute; reflexivity].
    cbn [mapM].
    rewrite (read_vertex_tokens _ "1.0, 2.0, 3.0" "1.0" " 2.0" " 3.0" f1 f2 f3)
      by (assumption || (vm_compute; reflexivity)).
    rewrite (read_vertex_tokens _ "4.0, 5.0, 6.0" "4.0" " 5.0" " 6.0" f4 f5 f6)
      by (assumption || (vm_compute; reflexivity)).
    reflexivity.
Qed.

(** ** The codec of [ElementTree] *)

Lemma ElementTree_from_xml_unfold (c : cls) (element : ET.Element) :
  ElementTree_from_xml c element
  = vars <- read_fields (cls_tag c) element (cls_init c) ;;
    Ok (ElementTree c vars).
Proof.
  destruct c as [n t init]. cbn [ElementTree_from_xml cls_tag cls_init].
  f_equal. induction init as [|[prop_name f] rest IH]; [reflexivity|].
  cbn [read_fields]. rewrite <- IH. reflexivity.
Qed.

(** C2, the code at the failing input. A document whose one attribute is a
    [TextProperty] is written with the text as an XML attribute named text
    and no element text; reading that element back gives the empty text,
    whatever the text was. *)
Theorem TextProperty_lost_by_round_trip (name tag prop_name t default v : string) :
  let c := Class name tag [(prop_name, FElement (TextProperty t default))] in
  to_xml (ElementTree c [(prop_name, FElement (TextProperty t v))])
  = Ok (ET.mkElement tag [] None None
          [ET.mkElement t [("text", v)] None None []])
  /\ ElementTree_from_xml c
       (ET.mkElement tag [] None None
          [ET.mkElement t [("text", v)] None None []])
     = Ok (ElementTree c [(prop_name, FElement (TextProperty t EmptyString))]).
Proof.
  intros c. split; [reflexivity|].
  rewrite ElementTree_from_xml_unfold. unfold c.
  cbn [cls_tag cls_init read_fields read_field tag_name_of].
  unfold ET.find. cbn [ET.children List.find ET.tag].
  rewrite String.eqb_refl. cbn [ET.tag]. rewrite String.eqb_refl. reflexivity.
Qed.





(** ** Construction and attribute access *)

(** C9. [ElementProperty.__init__] raises [TypeError] exactly when the value
    is truthy and is no instance of the declared value types; a falsy value
    of any type is stored as it is. *)
Theorem ElementProperty_init_TypeError (c : property_class) (tag_name : string)
  (value : pyvalue) :
  (ElementProperty_init c tag_name value = Raise TypeError
   <-> truthy value = true /\ isinstance value (value_types c) = false)
  /\ (truthy value = false ->
      ElementProperty_init c tag_name value
      = Ok (OElementProperty c tag_name value)).
Proof.
  clear str_other. unfold ElementProperty_init. split.
  - destruct (truthy value), (isinstance value (value_types c)); cbn;
      intuition congruence.
  - intros H. now rewrite H.
Qed.

(** The constructors of the subclasses replace a falsy value by a default
    before they call it, and raise in the same cases. *)
Lemma init_TypeError (c : property_class) (tag_name : string) (value : pyvalue) :
  init c tag_name value = Raise TypeError
  <-> truthy value = true /\ isinstance value (value_types c) = false.
Proof.
  clear str_other. unfold init, py_or, ElementProperty_init.
  destruct c; destruct (truthy value) eqn:Et; cbn;
    try rewrite Et; cbn;
    try destruct (isinstance value _); cbn; intuition congruence.
Qed.

Lemma falsy_values_accepted (c : property_class) (tag_name : string) :
  Forall (fun value =>
            ElementProperty_init c tag_name value
            = Ok (OElementProperty c tag_name value))
    [PyBool false; PyInt 0; PyStr EmptyString; PyList []; PyNone].
Proof. repeat constructor. Qed.

Lemma nth_error_store_same (h : heap) (r : nat) (o o' : object) :
  nth_error h r = Some o -> nth_error (store h r o') r = Some o'.
Proof.
  revert r. induction h as [|x h IH]; intros [|r] H; cbn in *;
    try discriminate; auto.
Qed.

Lemma nth_error_store_other (h : heap) (r a : nat) (o : object) :
  a <> r -> nth_error (store h r o) a = nth_error h a.
Proof.
  revert r a. induction h as [|x h IH]; intros [|r] [|a] H; cbn;
    try reflexivity; try congruence.
  apply IH. congruence.
Qed.

Lemma store_same (h : heap) (r : nat) (o : object) :
  nth_error h r = Some o -> store h r o = h.
Proof.
  revert r. induction h as [|x h IH]; intros [|r] H; cbn in *;
    try discriminate.
  - now injection H as ->.
  - now rewrite IH.
Qed.

Lemma assign_same (k : string) (v : pyvalue) (d : list (string * pyvalue)) :
  assoc k d = Some v -> assign k v d = d.
Proof.
  induction d as [|[k' v'] d IH]; cbn; [discriminate|].
  destruct (String.eqb k' k); intros H.
  - now injection H as ->.
  - now rewrite IH.
Qed.

(** C8. On an instance of a subclass of [ElementTree], a name that is
    neither in the instance dictionary nor an attribute of the class reads
    as [None]: the [AttributeError] is caught. *)
Theorem getattribute_undefined_is_None (h : heap) (self : nat)
  (class_attrs vars : list (string * pyvalue)) (key : string)
  (onlyValue : bool) :
  nth_error h self = Some (OElementTree class_attrs vars) ->
  assoc key vars = None ->
  assoc key class_attrs = None ->
  object_getattribute h self key = None
  /\ ElementTree_getattribute h self key onlyValue = PyNone.
Proof.
  intros Hself Hv Hc.
  assert (H : object_getattribute h self key = None).
  { unfold object_getattribute. now rewrite Hself, Hv. }
  split; [exact H|]. unfold ElementTree_getattribute. now rewrite H.
Qed.

(** C7, as amended. Let the attribute [name] of an instance be bound to a property
    object [o] at address [r]. Assigning a value that is no property leaves
    the heap as it was except that [o] holds the new value: the instance
    still binds [name] to [r], every other object is untouched. Reading the
    attribute then gives a value and not the wrapper: the assigned value
    for an [ElementProperty], its coercion for an [AttributeProperty]. *)
Theorem setattr_replaces_stored_value (h : heap) (self : nat)
  (class_attrs vars : list (string * pyvalue)) (name : string) (r : nat)
  (o : object) (value : pyvalue) :
  nth_error h self = Some (OElementTree class_attrs vars) ->
  assoc name vars = Some (PyRef r) ->
  nth_error h r = Some o ->
  is_property h (PyRef r) = true ->
  is_property h value = false ->
  let h' := ElementTree_setattr h self name value in
  h' = store h r (set_value value o)
  /\ nth_error h' self = Some (OElementTree class_attrs vars)
  /\ nth_error h' r = Some (set_value value o)
  /\ (forall a, a <> r -> nth_error h' a = nth_error h a)
  /\ ElementTree_getattribute h' self name true
     = match o with
       | OAttributeProperty _ _ => get_str_type value
       | _ => value
       end.
Proof.
  intros Hself Hname Hr Hprop Hplain h'.
  assert (Hne : self <> r).
  { intros ->. cbn in Hprop. rewrite Hself in Hprop. discriminate. }
  assert (Hself' : nth_error (store h r (set_value value o)) self
                   = Some (OElementTree class_attrs vars)).
  { rewrite nth_error_store_other by exact Hne. exact Hself. }
  assert (Hh' : h' = store h r (set_value value o)).
  { unfold h', ElementTree_setattr, ElementTree_getattribute,
      object_getattribute.
    rewrite Hself, Hname. cbn [andb truthy].
    rewrite andb_false_r, Hprop, Hplain. cbn [negb andb]. rewrite Hr.
    unfold object_setattr. rewrite Hself', (assign_same _ _ _ Hname).
    now apply store_same. }
  rewrite Hh'. repeat split.
  - exact Hself'.
  - now apply nth_error_store_same with (o := o).
  - intros a Ha. now apply nth_error_store_other.
  - unfold ElementTree_getattribute, object_getattribute.
    rewrite Hself', Hname. unfold is_property, value_of.
    rewrite (nth_error_store_same _ _ _ (set_value value o) Hr).
    cbn in Hprop. rewrite Hr in Hprop.
    destruct o; cbn; [reflexivity | reflexivity | discriminate Hprop].
Qed.

(** ** Further properties of the pretty-printer *)

Lemma significant_refill (i : string) (y : option string) :
  blank (Some i) = true ->
  significant (if blank y then Some i else y) = significant y.
Proof.
  intros Hi. unfold significant. destruct (blank y) eqn:E.
  - now rewrite Hi.
  - now rewrite E.
Qed.

Lemma content_retail (i : string) (e : ET.Element) :
  blank (Some i) = true -> content (retail i e) = content e.
Proof.
  intros Hi. destruct e as [t a x y c]. cbn [retail content].
  now rewrite significant_refill.
Qed.

Lemma map_map_last_any {A C : Type} (f : A -> C) (g : A -> A) (l : list A) :
  (forall x, f (g x) = f x) -> map f (map_last g l) = map f l.
Proof.
  intros H. induction l as [|x [|y l] IH]; cbn [map_last map] in *.
  - reflexivity.
  - now rewrite H.
  - now rewrite IH.
Qed.

(** X1. [indent] changes layout only: at every level it keeps the tags, the
    attributes, the number and order of the children, every tail that is not
    blank and every text, not blank, of an element that has children. *)
Theorem indent_keeps_content (e : ET.Element) (level : nat) :
  content (indent e level) = content e.
Proof.
  revert level.
  induction e as [t a x y c IH] using Element_ind_children. intros level.
  destruct c as [|child c].
  - cbn [indent content map]. f_equal. fold (margin level).
    destruct level as [|level]; [reflexivity|].
    cbn [Nat.eqb negb andb]. apply significant_refill, blank_margin.
  - set (kids := child :: c) in *.
    assert (Hstep : indent (ET.mkElement t a x y kids) level
                    = ET.mkElement t a
                        (if blank x then Some (margin level ++ amount) else x)
                        (if blank y then Some (margin level) else y)
                        (map_last (retail (margin level))
                           (map (fun k => indent k (level + 1)) kids)))
      by reflexivity.
    rewrite Hstep.
    assert (Hkids : map content
                      (map_last (retail (margin level))
                         (map (fun k => indent k (level + 1)) kids))
                    = map content kids).
    { rewrite map_map_last_any
        by (intros k; apply content_retail, blank_margin).
      rewrite map_map. apply map_ext_in. intros k Hin.
      rewrite Forall_forall in IH. now apply IH. }
    cbn [content]. rewrite Hkids.
    rewrite (significant_refill _ _ (blank_margin level)).
    rewrite (significant_refill _ _ (blank_margin_amount level)).
    assert (Hne : map_last (retail (margin level))
                    (map (fun k => indent k (level + 1)) kids) <> []).
    { apply map_last_nonempty. unfold kids. cbn. congruence. }
    destruct (map_last (retail (margin level))
                (map (fun k => indent k (level + 1)) kids));
      [congruence|].
    unfold kids. reflexivity.
Qed.

(** At level zero a childless root keeps its tail, and a childless
    element whose text has no newline keeps its text, whatever the level. *)
Theorem indent_leaf_untouched (t : string) (a : list (string * string))
  (x y : option string) (level : nat) :
  match x with Some s => contains newline s = false | None => True end ->
  ET.text (indent (ET.mkElement t a x y []) level) = x
  /\ ET.tail (indent (ET.mkElement t a x y []) 0) = y.
Proof.
  intros H. split; [|reflexivity]. cbn [indent ET.text].
  destruct x as [s|]; [|reflexivity]. unfold indent_text.
  now rewrite H, andb_false_r.
Qed.

(** ** Further properties of value coercion *)

(** X2. Coercing twice is coercing once. *)
Theorem get_str_type_idempotent (v : pyvalue) :
  get_str_type (get_str_type v) = get_str_type v.
Proof.
  destruct v as [|b|n|x|s|items|w|q|r]; try reflexivity.
  unfold get_str_type at 2 3.
  destruct (String.eqb (lower s) "true" || String.eqb (lower s) "false")
    eqn:E; [reflexivity|].
  destruct (py_int s) eqn:Ei; [reflexivity|].
  destruct (py_float s) eqn:Ef; [reflexivity|].
  unfold get_str_type. now rewrite E, Ei, Ef.
Qed.

(** X3. A string comes out of the coercion as a string only when it is the
    input itself, is no boolean literal in any casing, and is refused by
    both [int] and [float]. *)
Theorem get_str_type_stays_str (s s' : string) :
  get_str_type (PyStr s) = PyStr s' ->
  s' = s /\ lower s <> "true" /\ lower s <> "false"
  /\ (exists e, py_int s = Raise e) /\ (exists e, py_float s = Raise e).
Proof.
  unfold get_str_type.
  destruct (String.eqb (lower s) "true") eqn:Et; [discriminate|].
  destruct (String.eqb (lower s) "false") eqn:Ef; [discriminate|].
  cbn [orb].
  destruct (py_int s) eqn:Ei; [discriminate|].
  destruct (py_float s) eqn:Efl; [discriminate|].
  intros H. injection H as <-.
  apply String.eqb_neq in Et, Ef. eauto 10.
Qed.

(** ** Readers and writers, one property class at a time *)

Lemma split_nonempty (sep : ascii) (s : string) : split sep s <> [].
Proof.
  destruct s as [|c s]; cbn; [congruence|].
  destruct (Ascii.eqb c sep); [congruence|].
  destruct (split sep s); congruence.
Qed.

(** X4. Reading a [FlagsProperty] never raises: the guarded call of
    [read_value_error] cannot be reached, and an element without text, or
    with blank text, reads as the empty list. *)
Theorem FlagsProperty_from_xml_total (element : ET.Element) :
  (exists value,
      FlagsProperty_from_xml element
      = Ok (FlagsProperty (ET.tag element) value))
  /\ (blank (ET.text element) = true ->
      FlagsProperty_from_xml element = Ok (FlagsProperty (ET.tag element) [])).
Proof.
  unfold FlagsProperty_from_xml, blank. split.
  - destruct (ET.text element) as [t|]; [|eauto].
    destruct (negb (is_empty t) && (0 <? length (strip t))%nat); [|eauto].
    pose proof (split_nonempty comma (remove space t)) as Hs.
    destruct (split comma (remove space t)); [congruence|]. cbn. eauto.
  - destruct (ET.text element) as [t|]; [|reflexivity]. intros H.
    destruct (is_empty t); [reflexivity|]. cbn [orb negb andb] in *.
    destruct (strip t); [reflexivity | discriminate H].
Qed.



Lemma split_app_separator (sep : ascii) (a b : string) :
  contains sep a = false ->
  split sep (a ++ String sep b) = a :: split sep b.
Proof.
  induction a as [|d a IH]; cbn; intros H.
  - now rewrite Ascii.eqb_refl.
  - apply orb_false_iff in H as [Hd Ha]. now rewrite Hd, (IH Ha).
Qed.

Lemma split_join (sep : ascii) (f : string) (l : list string) :
  Forall (fun x => contains sep x = false) (f :: l) ->
  split sep (join (String sep EmptyString) (f :: l)) = f :: l.
Proof.
  revert f. induction l as [|g l IH]; intros f H.
  - cbn. apply split_no_separator. now inversion H.
  - inversion H as [|? ? Hf Hl]; subst.
    change (join (String sep EmptyString) (f :: g :: l))
      with (f ++ String sep EmptyString ++ join (String sep EmptyString)
                                                 (g :: l)).
    cbn [append]. rewrite (split_app_separator _ _ _ Hf). now rewrite IH.
Qed.



(** X6. A list of one flag that is empty or blank is lost: the element is
    written, and read back as the empty list. *)
Theorem FlagsProperty_blank_flag_lost (tag_name f : string) :
  strip f = EmptyString ->
  FlagsProperty_from_xml (FlagsProperty_to_xml tag_name [f])
  = Ok (FlagsProperty tag_name []).
Proof.
  intros H. unfold FlagsProperty_to_xml, FlagsProperty_from_xml.
  cbn [List.length Nat.ltb Nat.leb ET.new ET.set_text ET.text ET.tag join].
  rewrite H. cbn [length Nat.ltb Nat.leb]. now rewrite andb_false_r.
Qed.

(** X7. A vector is read back as it was written when Python reads back the
    text it prints for each component and storing a stored component does
    not change it. *)
Theorem VectorProperty_round_trip (tag_name : string) (value : Vector) :
  Forall (fun c => py_float (str_float c) = Ok c /\ single c = c)
    [vx value; vy value; vz value] ->
  VectorProperty_from_xml (VectorProperty_to_xml tag_name value)
  = Ok (VectorProperty tag_name value).
Proof.
  intros H. destruct value as [x y z]. cbn [vx vy vz] in H.
  inversion H as [|? ? [Hx Sx] H1]; subst.
  inversion H1 as [|? ? [Hy Sy] H2]; subst.
  inversion H2 as [|? ? [Hz Sz] _]; subst.
  unfold VectorProperty_from_xml, VectorProperty_to_xml, float_attr, Vector_of.
  cbn. rewrite Hx. cbn. rewrite Hy. cbn. rewrite Hz. cbn.
  now rewrite Sx, Sy, Sz.
Qed.

(** X8. The four attributes a quaternion is written with are read back as
    an axis and an angle: what is read is [Quaternion((x, y, z), w)] of the
    written components, which is the written quaternion only where that
    constructor gives the components back. *)
Theorem QuaternionProperty_round_trip (tag_name : string) (value : Quaternion) :
  Forall (fun c => py_float (str_float c) = Ok c)
    [qx value; qy value; qz value; qw value] ->
  QuaternionProperty_from_xml (QuaternionProperty_to_xml tag_name value)
  = Ok (QuaternionProperty tag_name
          (Quaternion_of (qx value) (qy value) (qz value) (qw value))).
Proof.
  intros H. destruct value as [w x y z]. cbn [qx qy qz qw] in *.
  inversion H as [|? ? Hx H1]; subst.
  inversion H1 as [|? ? Hy H2]; subst.
  inversion H2 as [|? ? Hz H3]; subst.
  inversion H3 as [|? ? Hw _]; subst.
  unfold QuaternionProperty_from_xml, QuaternionProperty_to_xml, float_attr.
  cbn. rewrite Hx. cbn. rewrite Hy. cbn. rewrite Hz. cbn. rewrite Hw.
  reflexivity.
Qed.

(** X9. A [ValueProperty] is read back as the coercion of the text of its
    value: a string that looks like a number comes back as a number, and
    both booleans come back as true. *)
Theorem ValueProperty_round_trip (tag_name : string) (value : pyvalue) :
  ValueProperty_from_xml (ValueProperty_to_xml tag_name value)
  = Ok (ValueProperty tag_name (get_str_type (PyStr (py_str value))))
  /\ forall b,
       ValueProperty_from_xml (ValueProperty_to_xml tag_name (PyBool b))
       = Ok (ValueProperty tag_name (PyBool true)).
Proof.
  split; [reflexivity|]. intros [|]; reflexivity.
Qed.

(** X10. Reading a vector or a quaternion from an element that lacks one of
    the attributes raises the [ValueError] of [read_value_error], whose
    text has the tag of the element and the name of the class. *)
Theorem missing_component_ValueError (element : ET.Element) (k : string) :
  ET.has k element = false ->
  (In k ["x"; "y"; "z"] ->
   VectorProperty_from_xml element
   = Raise (ValueError ("Invalid XML element '<" ++ ET.tag element
                        ++ " />' for type 'VectorProperty'!")))
  /\ (In k ["x"; "y"; "z"; "w"] ->
      QuaternionProperty_from_xml element
      = Raise (ValueError ("Invalid XML element '<" ++ ET.tag element
                           ++ " />' for type 'QuaternionProperty'!"))).
Proof.
  intros Hk. split; intros Hin.
  - unfold VectorProperty_from_xml.
    assert (E : forallb (fun x => ET.has x element) ["x"; "y"; "z"] = false).
    { apply not_true_is_false. intros E. rewrite forallb_forall in E.
      rewrite (E k Hin) in Hk. discriminate. }
    now rewrite E.
  - unfold QuaternionProperty_from_xml.
    assert (E : forallb (fun x => ET.has x element) ["x"; "y"; "z"; "w"]
                = false).
    { apply not_true_is_false. intros E. rewrite forallb_forall in E.
      rewrite (E k Hin) in Hk. discriminate. }
    now rewrite E.
Qed.

(** ** Further properties of the codec *)

Lemma to_xml_ElementTree (c : cls) (vars : list (string * field)) :
  to_xml (ElementTree c vars) = write_fields vars (ET.new (cls_tag c) []).
Proof.
  cbn [to_xml]. generalize (ET.new (cls_tag c) []).
  induction vars as [|[prop_name f] rest IH]; intros root; [reflexivity|].
  cbn [write_fields]. destruct f as [o|n v|v]; try apply IH.
  destruct (to_xml o) as [x|e]; [|reflexivity]. cbn [bind]. apply IH.
Qed.

Lemma to_xml_ListProperty (list_type : cls) (t : string) (value : list obj) :
  to_xml (ListProperty list_type t value)
  = write_items list_type value (ET.new t []).
Proof.
  cbn [to_xml]. generalize (ET.new t []).
  induction value as [|item rest IH]; intros element; [reflexivity|].
  cbn [write_items]. destruct (is_instance item list_type); [|reflexivity].
  destruct (to_xml item) as [x|e]; [|reflexivity]. cbn [bind]. apply IH.
Qed.

Lemma mapM_app {A C : Type} (f : A -> result C) (l : list A) (x : A)
  (ys : list C) (y : C) :
  mapM f l = Ok ys -> f x = Ok y -> mapM f (l ++ [x])%list = Ok (ys ++ [y])%list.
Proof.
  revert ys. induction l as [|a l IH]; intros ys Hl Hx; cbn in *.
  - injection Hl as <-. now rewrite Hx.
  - destruct (f a) as [b|e]; [|discriminate Hl]. cbn [bind] in *.
    destruct (mapM f l) as [bs|e]; [|discriminate Hl]. cbn [bind] in *.
    injection Hl as <-. now rewrite (IH bs eq_refl Hx).
Qed.

Lemma mapM_In {A C : Type} (f : A -> result C) (l : list A) (ys : list C)
  (x : A) (y : C) :
  mapM f l = Ok ys -> In x l -> f x = Ok y -> In y ys.
Proof.
  revert ys. induction l as [|a l IH]; intros ys Hl Hin Hx; [easy|].
  cbn in Hl. destruct (f a) as [b|e] eqn:Ea; [|discriminate Hl].
  cbn [bind] in Hl. destruct (mapM f l) as [bs|e]; [|discriminate Hl].
  cbn [bind] in Hl. injection Hl as <-. destruct Hin as [->|Hin].
  - left. congruence.
  - right. now apply (IH bs).
Qed.

Lemma mapM_map {A C D : Type} (f : A -> result C) (g : A -> D) (h : C -> D)
  (l : list A) (ys : list C) :
  (forall x y, In x l -> f x = Ok y -> h y = g x) ->
  mapM f l = Ok ys -> map h ys = map g l.
Proof.
  revert ys. induction l as [|a l IH]; intros ys Hf Hl; cbn in Hl.
  - now injection Hl as <-.
  - destruct (f a) as [b|e] eqn:Ea; [|discriminate Hl]. cbn [bind] in Hl.
    destruct (mapM f l) as [bs|e]; [|discriminate Hl]. cbn [bind] in Hl.
    injection Hl as <-. cbn [map]. f_equal.
    + apply Hf; [now left | exact Ea].
    + apply IH; [|reflexivity]. intros x y Hin. apply Hf. now right.
Qed.

(** What [to_xml] builds for an instance: the written elements are appended
    in the order of the attributes, the [AttributeProperty] objects are set
    in that order, and nothing else of the root changes. *)
Lemma write_fields_shape (vars : list (string * field)) (root : ET.Element)
  (es : list ET.Element) :
  mapM to_xml (map snd (elements vars)) = Ok es ->
  write_fields vars root
  = Ok (ET.mkElement (ET.tag root) (written_attrib vars (ET.attrib root))
          (ET.text root) (ET.tail root) (ET.children root ++ es)%list).
Proof.
  revert root es.
  induction vars as [|[prop_name f] rest IH]; intros root es H.
  - cbn in H. injection H as <-. destruct root. cbn.
    now rewrite app_nil_r.
  - destruct f as [o|n v|v]; cbn [write_fields elements map snd] in *.
    + cbn [mapM] in H. destruct (to_xml o) as [x|e]; [|discriminate H].
      cbn [bind] in *.
      destruct (mapM to_xml (map snd (elements rest))) as [xs|e] eqn:E;
        [|discriminate H].
      cbn [bind] in H. injection H as <-.
      rewrite (IH _ xs eq_refl). destruct root. cbn.
      now rewrite <- app_assoc.
    + rewrite (IH _ es H). destruct root. reflexivity.
    + now rewrite (IH _ es H).
Qed.

Lemma write_fields_inv (vars : list (string * field)) (root e : ET.Element) :
  write_fields vars root = Ok e ->
  exists es, mapM to_xml (map snd (elements vars)) = Ok es.
Proof.
  revert root. induction vars as [|[prop_name f] rest IH]; intros root H.
  - cbn. eauto.
  - destruct f as [o|n v|v]; cbn [write_fields elements map snd] in *.
    + cbn [mapM]. destruct (to_xml o) as [x|err]; [|discriminate H].
      cbn [bind] in *. destruct (IH _ H) as [es ->]. cbn. eauto.
    + eapply IH, H.
    + eapply IH, H.
Qed.

(** X11. The element written for an instance has the tag of its class, no
    text and no tail; its children are the elements written for the
    attributes that are elements, in their order, and its XML attributes
    are those set by the [AttributeProperty] objects, in their order. *)
Theorem ElementTree_to_xml_shape (c : cls) (vars : list (string * field))
  (e : ET.Element) :
  to_xml (ElementTree c vars) = Ok e ->
  ET.tag e = cls_tag c /\ ET.text e = None /\ ET.tail e = None
  /\ ET.attrib e = written_attrib vars []
  /\ mapM to_xml (map snd (elements vars)) = Ok (ET.children e).
Proof.
  rewrite to_xml_ElementTree. intros H.
  destruct (write_fields_inv _ _ _ H) as [es Hes].
  rewrite (write_fields_shape _ _ _ Hes) in H. injection H as <-.
  cbn. auto.
Qed.

Lemma write_items_tag (list_type : cls) (items : list obj)
  (element e : ET.Element) :
  write_items list_type items element = Ok e -> ET.tag e = ET.tag element.
Proof.
  revert element. induction items as [|item rest IH]; intros element H.
  - cbn in H. now injection H as <-.
  - cbn [write_items] in H.
    destruct (is_instance item list_type); [|discriminate H].
    destruct (to_xml item) as [x|err]; [|discriminate H]. cbn [bind] in H.
    rewrite (IH _ H). now destruct element.
Qed.

Lemma to_xml_has_tag (o : obj) (e : ET.Element) :
  to_xml o = Ok e -> ET.tag e = tag_name_of o.
Proof.
  destruct o as [t v|t v|t v|lt t v|t v|t v|t v|c vars]; intros H;
    try (cbn in H; injection H as <-; reflexivity).
  - rewrite to_xml_ListProperty in H. now rewrite (write_items_tag _ _ _ _ H).
  - unfold FlagsProperty_to_xml in H. cbn in H.
    destruct v; cbn in H; injection H as <-; reflexivity.
  - rewrite to_xml_ElementTree in H.
    destruct (write_fields_inv _ _ _ H) as [es Hes].
    rewrite (write_fields_shape _ _ _ Hes) in H. now injection H as <-.
Qed.

(** X12. Whatever the class, an element that is written carries the
    [tag_name] of the object it is written for. *)
Theorem to_xml_tag (o : obj) (e : ET.Element) :
  to_xml o = Ok e -> ET.tag e = tag_name_of o.
Proof. apply to_xml_has_tag. Qed.

Ltac invert_read H :=
  repeat
    match type of H with
    | bind ?r _ = Ok _ =>
        let x := fresh "x" in
        destruct r as [x|?] eqn:?; [cbn [bind] in H | discriminate H]
    | (if ?b then _ else _) = Ok _ => destruct b eqn:?
    | read_value_error _ _ = Ok _ => discriminate H
    | Raise _ = Ok _ => discriminate H
    | match ?x with _ => _ end = Ok _ => destruct x eqn:?
    end.

(** The reader of a class returns an object of that class, under the tag of
    the element it reads, or under the tag of the class for an instance. *)
Lemma from_xml_as_class (d o : obj) (child : ET.Element) :
  from_xml_as d child = Ok o ->
  same_class d o = true
  /\ tag_name_of o
     = match d with
       | ElementTree c _ => cls_tag c
       | _ => ET.tag child
       end.
Proof.
  destruct d as [t v|t v|t v|lt t v|t v|t v|t v|c vars];
    cbn [from_xml_as]; intros H.
  - unfold TextProperty_from_xml in H. injection H as <-. auto.
  - unfold VectorProperty_from_xml in H. invert_read H.
    injection H as <-. auto.
  - unfold QuaternionProperty_from_xml in H. invert_read H.
    injection H as <-. auto.
  - unfold ListProperty_from_xml in H. invert_read H.
    injection H as <-. cbn. now rewrite String.eqb_refl.
  - unfold VerticesProperty_from_xml in H. invert_read H;
      injection H as <-; auto.
  - unfold FlagsProperty_from_xml in H. invert_read H;
      injection H as <-; auto.
  - unfold ValueProperty_from_xml in H. invert_read H;
      injection H as <-; auto.
  - rewrite ElementTree_from_xml_unfold in H. invert_read H.
    injection H as <-. cbn. now rewrite String.eqb_refl.
Qed.

Lemma read_field_same (tag : string) (element : ET.Element) (f g : field) :
  read_field tag element f = Ok g -> same_field f g.
Proof.
  destruct f as [d|n v|v]; cbn [read_field]; intros H.
  - destruct (ET.find (tag_name_of d) element) as [child|];
      [|injection H as <-; cbn; split;
        [destruct d; cbn; auto using String.eqb_refl | reflexivity]].
    destruct (String.eqb (tag_name_of d) (ET.tag child)) eqn:E;
      [|injection H as <-; cbn; split;
        [destruct d; cbn; auto using String.eqb_refl | reflexivity]].
    destruct (from_xml_as d child) as [o|] eqn:Eo; [|discriminate H].
    cbn [bind] in H. injection H as <-.
    destruct (from_xml_as_class _ _ _ Eo) as [Hc Ht]. split; [exact Hc|].
    rewrite Ht. apply String.eqb_eq in E. destruct d; cbn in *; congruence.
  - destruct (ET.has n element && String.eqb tag (ET.tag element));
      injection H as <-; reflexivity.
  - injection H as <-. reflexivity.
Qed.

(** X14. Reading keeps the layout of the instance: the result is an
    instance of the class, with the attribute names of the constructor in
    their order; under each name an element is still an element of the same
    class and tag, an [AttributeProperty] has its name, and any other
    attribute is unchanged. *)
Theorem from_xml_keeps_layout (c : cls) (element : ET.Element) (o : obj) :
  ElementTree_from_xml c element = Ok o ->
  exists vars,
    o = ElementTree c vars
    /\ map fst vars = map fst (cls_init c)
    /\ Forall2 same_field (map snd (cls_init c)) (map snd vars).
Proof.
  rewrite ElementTree_from_xml_unfold. intros H.
  destruct (read_fields (cls_tag c) element (cls_init c)) as [vars|] eqn:E;
    [|discriminate H].
  cbn [bind] in H. injection H as <-. exists vars. split; [reflexivity|].
  revert vars E. generalize (cls_init c) as items.
  induction items as [|[prop_name f] rest IH]; intros vars E.
  - cbn in E. injection E as <-. split; constructor.
  - cbn [read_fields] in E.
    destruct (read_field (cls_tag c) element f) as [g|] eqn:Eg;
      [|discriminate E].
    cbn [bind] in E.
    destruct (read_fields (cls_tag c) element rest) as [xs|] eqn:Er;
      [|discriminate E].
    cbn [bind] in E. injection E as <-.
    destruct (IH xs eq_refl) as [Hn Hs]. cbn [map fst snd]. split.
    + now rewrite Hn.
    + constructor; [now apply read_field_same in Eg | exact Hs].
Qed.

(** X15. When the tag of the element is the tag of the class, every
    [AttributeProperty] whose name is an attribute of the element takes the
    text of that attribute, and every other one keeps the value the
    constructor gave it. *)
Theorem from_xml_reads_attributes (c : cls) (element : ET.Element) (o : obj) :
  cls_tag c = ET.tag element ->
  ElementTree_from_xml c element = Ok o ->
  attributes (vars_of o)
  = map (fun p =>
           (fst p,
            (fst (snd p),
             match ET.get (fst (snd p)) element with
             | Some v => PyStr v
             | None => snd (snd p)
             end)))
      (attributes (cls_init c)).
Proof.
  intros Htag. rewrite ElementTree_from_xml_unfold. intros H.
  destruct (read_fields (cls_tag c) element (cls_init c)) as [vars|] eqn:E;
    [|discriminate H].
  cbn [bind] in H. injection H as <-. cbn [vars_of].
  apply String.eqb_eq in Htag.
  revert vars E. generalize (cls_init c) as items.
  induction items as [|[prop_name f] rest IH]; intros vars E.
  - cbn in E. now injection E as <-.
  - cbn [read_fields] in E.
    destruct (read_field (cls_tag c) element f) as [g|] eqn:Eg;
      [|discriminate E].
    cbn [bind] in E.
    destruct (read_fields (cls_tag c) element rest) as [xs|] eqn:Er;
      [|discriminate E].
    cbn [bind] in E. injection E as <-. specialize (IH xs eq_refl).
    pose proof (read_field_same _ _ _ _ Eg) as Hs.
    destruct f as [d|n v|v], g as [d'|n' v'|v']; cbn in Hs; try easy;
      cbn [attributes map]; try exact IH.
    cbn [read_field] in Eg. rewrite Htag, andb_true_r in Eg.
    unfold ET.has in Eg. cbn [fst snd]. rewrite IH.
    destruct (ET.get n element); injection Eg as <- <-; reflexivity.
Qed.

(** X16. Absence is no error: when no child of the element has the tag of
    an attribute that is an element, reading returns an instance whose
    elements are those the constructor created. *)
Theorem from_xml_absent_children (c : cls) (element : ET.Element) :
  (forall p d, In (p, d) (elements (cls_init c)) ->
               ET.find (tag_name_of d) element = None) ->
  exists vars,
    ElementTree_from_xml c element = Ok (ElementTree c vars)
    /\ elements vars = elements (cls_init c).
Proof.
  intros H. rewrite ElementTree_from_xml_unfold.
  assert (E : exists vars,
             read_fields (cls_tag c) element (cls_init c) = Ok vars
             /\ elements vars = elements (cls_init c)).
  { revert H. generalize (cls_init c) as items.
    induction items as [|[prop_name f] rest IH]; intros H.
    - exists []. split; reflexivity.
    - destruct IH as [xs [Hx Hel]].
      { intros p d Hin. apply (H p d).
        destruct f; cbn [elements]; auto using in_cons. }
      cbn [read_fields]. rewrite Hx. destruct f as [d|n v|v]; cbn [read_field].
      + rewrite (H prop_name d) by (cbn; auto). cbn.
        eexists. split; [reflexivity|]. cbn. now rewrite Hel.
      + destruct (ET.has n element && String.eqb (cls_tag c) (ET.tag element));
          cbn; eexists; (split; [reflexivity|]); cbn; exact Hel.
      + cbn. eexists. split; [reflexivity|]. cbn. exact Hel. }
  destruct E as [vars [-> Hel]]. exists vars. split; [reflexivity | exact Hel].
Qed.

(** *** The round trip of an instance *)

Lemma lookup_update_same (k v : string) (a : list (string * string)) :
  ET.lookup k (ET.update k v a) = Some v.
Proof.
  induction a as [|[k' v'] a IH]; cbn.
  - now rewrite String.eqb_refl.
  - destruct (String.eqb k' k) eqn:E; cbn; now rewrite E.
Qed.

Lemma lookup_update_other (k k' v : string) (a : list (string * string)) :
  k <> k' -> ET.lookup k (ET.update k' v a) = ET.lookup k a.
Proof.
  intros Hk. induction a as [|[k0 v0] a IH]; cbn.
  - apply String.eqb_neq in Hk. rewrite String.eqb_sym in Hk. now rewrite Hk.
  - destruct (String.eqb k0 k') eqn:E; cbn; [|now rewrite IH].
    apply String.eqb_eq in E. subst k0.
    assert (E' : String.eqb k' k = false)
      by (apply String.eqb_neq; congruence).
    now rewrite E'.
Qed.

Lemma fold_update_other (k : string) (f : string * pyvalue -> string)
  (l : list (string * (string * pyvalue))) (a : list (string * string)) :
  ~ In k (map (fun p => fst (snd p)) l) ->
  ET.lookup k (fold_left (fun a p => ET.update (fst (snd p)) (f (snd p)) a) l a)
  = ET.lookup k a.
Proof.
  revert a. induction l as [|x l IH]; intros a H; [reflexivity|].
  cbn [fold_left]. rewrite IH by (intros Hin; apply H; now right).
  apply lookup_update_other. intros ->. apply H. now left.
Qed.

Lemma fold_update_in (f : string * pyvalue -> string)
  (l : list (string * (string * pyvalue))) (a : list (string * string))
  (x : string * (string * pyvalue)) :
  NoDup (map (fun p => fst (snd p)) l) -> In x l ->
  ET.lookup (fst (snd x))
    (fold_left (fun a p => ET.update (fst (snd p)) (f (snd p)) a) l a)
  = Some (f (snd x)).
Proof.
  revert a. induction l as [|y l IH]; intros a Hnd Hin; [easy|].
  cbn [map] in Hnd. inversion Hnd as [|? ? Hy Hl]; subst.
  cbn [fold_left]. destruct Hin as [->|Hin].
  - rewrite fold_update_other by exact Hy. apply lookup_update_same.
  - now apply IH.
Qed.

Lemma find_by_tag (es : list ET.Element) (e : ET.Element) :
  NoDup (map ET.tag es) -> In e es ->
  List.find (fun c => String.eqb (ET.tag c) (ET.tag e)) es = Some e.
Proof.
  induction es as [|k es IH]; intros Hnd Hin; [easy|].
  cbn [map] in Hnd. inversion Hnd as [|? ? Hk Hes]; subst. cbn [List.find].
  destruct Hin as [->|Hin].
  - now rewrite String.eqb_refl.
  - destruct (String.eqb (ET.tag k) (ET.tag e)) eqn:E; [|now apply IH].
    apply String.eqb_eq in E. elim Hk. rewrite E. now apply in_map.
Qed.

Lemma in_elements (vars : list (string * field)) (p : string) (o : obj) :
  In (p, FElement o) vars <-> In (p, o) (elements vars).
Proof.
  clear str_other. induction vars as [|[q f] vars IH]; [easy|].
  destruct f as [d|n v|v]; cbn [elements]; cbn [In]; rewrite <- IH;
    intuition congruence.
Qed.

Lemma in_attributes (vars : list (string * field)) (p n : string)
  (v : pyvalue) :
  In (p, FAttribute n v) vars <-> In (p, (n, v)) (attributes vars).
Proof.
  clear str_other. induction vars as [|[q f] vars IH]; [easy|].
  destruct f as [d|m w|w]; cbn [attributes]; cbn [In]; rewrite <- IH;
    intuition congruence.
Qed.

Lemma mapM_total {A C : Type} (f : A -> result C) (l : list A) :
  (forall x, In x l -> exists y, f x = Ok y) -> exists ys, mapM f l = Ok ys.
Proof.
  induction l as [|a l IH]; intros H; cbn; [eauto|].
  destruct (H a) as [b ->]; [now left|].
  destruct IH as [bs ->]; [intros x Hx; apply H; now right|]. cbn. eauto.
Qed.

Lemma Forall2_in_right {A C : Type} (R : A -> C -> Prop) (l : list A)
  (l' : list C) (y : C) :
  Forall2 R l l' -> In y l' -> exists x, In x l /\ R x y.
Proof.
  induction 1 as [|a b l l' Hab H IH]; intros Hin; [easy|].
  destruct Hin as [->|Hin].
  - exists a. split; [now left | exact Hab].
  - destruct (IH Hin) as [x [Hx Hr]]. exists x. split; [now right | exact Hr].
Qed.

Lemma read_fields_round (tag : string) (a : list (string * string))
  (x y : option string) (es : list ET.Element)
  (all items vars : list (string * field)) :
  NoDup (map ET.tag es) ->
  (forall p o e, In (p, FElement o) all -> to_xml o = Ok e -> In e es) ->
  (forall p n v, In (p, FAttribute n v) all ->
                 ET.lookup n a = Some (py_str (get_str_type v))) ->
  Forall2 (fun i v => fst i = fst v /\ field_round_trips (snd i) (snd v))
    items vars ->
  incl vars all ->
  read_fields tag (ET.mkElement tag a x y es) items = Ok vars.
Proof.
  intros Hnd He Ha H. induction H as [|[p f] [q g] items vars [Hp Hf] H IH];
    intros Hincl; [reflexivity|].
  cbn [fst snd] in Hp, Hf. subst q. cbn [read_fields].
  rewrite IH by (intros z Hz; apply Hincl; now right).
  assert (Hin : In (p, g) all) by (apply Hincl; now left).
  assert (Hg : read_field tag (ET.mkElement tag a x y es) f = Ok g).
  { destruct f as [d|n v|v], g as [o|m w|w]; cbn in Hf; try easy.
    - destruct Hf as [Ht [e [Hw Hr]]]. cbn [read_field].
      pose proof (to_xml_has_tag _ _ Hw) as Hte.
      unfold ET.find. cbn [ET.children]. rewrite Ht, <- Hte.
      rewrite (find_by_tag _ _ Hnd (He _ _ _ Hin Hw)).
      now rewrite String.eqb_refl, Hr.
    - destruct Hf as [-> Hw]. cbn [read_field].
      unfold ET.has, ET.get. cbn [ET.attrib ET.tag].
      rewrite (Ha _ _ _ Hin), String.eqb_refl. cbn [andb].
      now rewrite <- Hw.
    - now subst w. }
  now rewrite Hg.
Qed.

(** X17. The round trip of an instance, relative to its parts. Let the
    instance have the attribute names of its constructor, in order; let
    each attribute that is an element be written, and read as itself by the
    reader of the class the constructor put there; let each
    [AttributeProperty] hold the text Python prints for its coerced value;
    let the tags of the elements differ from each other, and the names of
    the XML attributes too. Then the instance is written, and reading what
    was written returns the instance. *)
Theorem ElementTree_round_trip (c : cls) (vars : list (string * field)) :
  Forall2 (fun i v => fst i = fst v /\ field_round_trips (snd i) (snd v))
    (cls_init c) vars ->
  NoDup (map (fun p => tag_name_of (snd p)) (elements vars)) ->
  NoDup (map (fun p => fst (snd p)) (attributes vars)) ->
  exists e,
    to_xml (ElementTree c vars) = Ok e
    /\ ElementTree_from_xml c e = Ok (ElementTree c vars).
Proof.
  intros H Ht Hn.
  assert (Hw : forall p o, In (p, FElement o) vars -> exists e, to_xml o = Ok e).
  { intros p o Hin.
    destruct (Forall2_in_right _ _ _ _ H Hin) as [[q f] [_ [_ Hf]]].
    cbn [snd] in Hf. destruct f as [d|n v|v]; cbn in Hf; try easy.
    destruct Hf as [_ [e [He _]]]. eauto. }
  destruct (mapM_total to_xml (map snd (elements vars))) as [es Hes].
  { intros o Hin. apply in_map_iff in Hin as [[p o'] [<- Hin]].
    apply in_elements in Hin. eapply Hw, Hin. }
  exists (ET.mkElement (cls_tag c) (written_attrib vars []) None None es).
  split.
  - rewrite to_xml_ElementTree, (write_fields_shape _ _ _ Hes). reflexivity.
  - rewrite ElementTree_from_xml_unfold.
    rewrite (read_fields_round (cls_tag c) (written_attrib vars []) None None
               es vars (cls_init c) vars).
    + reflexivity.
    + rewrite (mapM_map to_xml tag_name_of ET.tag _ _
                 (fun o e _ => to_xml_has_tag o e) Hes).
      now rewrite map_map.
    + intros p o e Hin He. apply (mapM_In _ _ _ o e Hes); [|exact He].
      apply in_map_iff. exists (p, o). split; [reflexivity|].
      now apply in_elements.
    + intros p n v Hin. apply in_attributes in Hin. unfold written_attrib.
      exact (fold_update_in (fun nv => py_str (get_str_type (snd nv)))
               _ _ (p, (n, v)) Hn Hin).
    + exact H.
    + apply incl_refl.
Qed.

(** ** Further properties of construction and attribute access *)

(** X18. Every constructor but the one of [ValueProperty] establishes the
    declared value type: the object it returns holds an instance of the
    value types of its class, which is the given value when that is truthy
    and the default of the class otherwise. *)
Theorem init_establishes_value_type (c : property_class) (tag_name : string)
  (value : pyvalue) (o : object) :
  c <> C_ValueProperty ->
  init c tag_name value = Ok o ->
  exists stored,
    o = OElementProperty c tag_name stored
    /\ isinstance stored (value_types c) = true
    /\ (truthy value = true -> stored = value)
    /\ (truthy value = false -> class_default c = Some stored).
Proof.
  clear str_other subclass. intros Hc.
  unfold init, py_or, ElementProperty_init.
  destruct c; try congruence; destruct (truthy value) eqn:Et; cbn;
    try rewrite Et; cbn;
    try (destruct (isinstance value _) eqn:Ei; cbn);
    intros H; try discriminate H; injection H as <-;
    eexists; repeat split; auto; try discriminate.
Qed.

Lemma assoc_assign (k : string) (v : pyvalue) (d : list (string * pyvalue)) :
  assoc k (assign k v d) = Some v.
Proof.
  induction d as [|[k' v'] d IH]; cbn.
  - now rewrite String.eqb_refl.
  - destruct (String.eqb k' k) eqn:E; cbn; now rewrite E.
Qed.

Lemma assign_keys (k : string) (v : pyvalue) (d : list (string * pyvalue)) :
  assoc k d <> None -> map fst (assign k v d) = map fst d.
Proof.
  induction d as [|[k' v'] d IH]; cbn; [congruence|].
  destruct (String.eqb k' k); cbn; intros H; [reflexivity|].
  now rewrite IH.
Qed.

(** X19. Assigning a property object, or assigning to a name that is not
    bound to a property object, binds the name to the assigned value in the
    instance dictionary and changes no other object. A name that was in the
    dictionary keeps its place. *)
Theorem setattr_rebinds (h : heap) (self : nat)
  (class_attrs vars : list (string * pyvalue)) (name : string)
  (value : pyvalue) :
  nth_error h self = Some (OElementTree class_attrs vars) ->
  is_property h value = true
  \/ is_property h (ElementTree_getattribute h self name false) = false ->
  let h' := ElementTree_setattr h self name value in
  h' = store h self (OElementTree class_attrs (assign name value vars))
  /\ ElementTree_getattribute h' self name false = value
  /\ (forall a, a <> self -> nth_error h' a = nth_error h a)
  /\ (assoc name vars <> None ->
      map fst (assign name value vars) = map fst vars).
Proof.
  intros Hself Hcase h'.
  assert (Hh' : h' = store h self
                       (OElementTree class_attrs (assign name value vars))).
  { unfold h', ElementTree_setattr.
    assert (E : truthy (ElementTree_getattribute h self name false)
                && is_property h (ElementTree_getattribute h self name false)
                && negb (is_property h value) = false).
    { destruct Hcase as [-> | ->].
      - apply andb_false_r.
      - now rewrite andb_false_r. }
    rewrite E. unfold object_setattr. now rewrite Hself. }
  rewrite Hh'. repeat split.
  - unfold ElementTree_getattribute, object_getattribute.
    rewrite (nth_error_store_same _ _ _ _ Hself), assoc_assign.
    now rewrite andb_false_r.
  - intros a Ha. now apply nth_error_store_other.
  - apply assign_keys.
Qed.

Lemma setattr_plain_heap (h : heap) (self : nat)
  (class_attrs vars : list (string * pyvalue)) (name : string) (r : nat)
  (o : object) (value : pyvalue) :
  nth_error h self = Some (OElementTree class_attrs vars) ->
  assoc name vars = Some (PyRef r) ->
  nth_error h r = Some o ->
  is_property h (PyRef r) = true ->
  is_property h value = false ->
  ElementTree_setattr h self name value = store h r (set_value value o).
Proof.
  intros Hself Hname Hr Hprop Hplain.
  assert (Hne : self <> r).
  { intros ->. cbn in Hprop. rewrite Hself in Hprop. discriminate. }
  unfold ElementTree_setattr, ElementTree_getattribute, object_getattribute.
  rewrite Hself, Hname. cbn [andb truthy].
  rewrite andb_false_r, Hprop, Hplain. cbn [negb andb]. rewrite Hr.
  unfold object_setattr.
  rewrite nth_error_store_other by exact Hne.
  rewrite Hself, (assign_same _ _ _ Hname).
  apply store_same. now rewrite nth_error_store_other by exact Hne.
Qed.

(** X20. A property object is shared by reference: after a plain value is
    assigned through one name, every attribute of every instance that is
    bound to the same property object reads as the new value. *)
Theorem setattr_seen_through_alias (h : heap) (self : nat)
  (class_attrs vars : list (string * pyvalue)) (name : string) (r : nat)
  (o : object) (value : pyvalue) (other : nat)
  (class_attrs' vars' : list (string * pyvalue)) (name' : string) :
  nth_error h self = Some (OElementTree class_attrs vars) ->
  assoc name vars = Some (PyRef r) ->
  nth_error h r = Some o ->
  is_property h (PyRef r) = true ->
  is_property h value = false ->
  nth_error h other = Some (OElementTree class_attrs' vars') ->
  assoc name' vars' = Some (PyRef r) ->
  ElementTree_getattribute (ElementTree_setattr h self name value)
    other name' true
  = match o with
    | OAttributeProperty _ _ => get_str_type value
    | _ => value
    end.
Proof.
  intros Hself Hname Hr Hprop Hplain Hother Hname'.
  rewrite (setattr_plain_heap _ _ _ _ _ _ _ _ Hself Hname Hr Hprop Hplain).
  assert (Hne : other <> r).
  { intros ->. cbn in Hprop. rewrite Hother in Hprop. discriminate. }
  unfold ElementTree_getattribute, object_getattribute.
  rewrite nth_error_store_other by exact Hne. rewrite Hother, Hname'.
  unfold is_property, value_of.
  rewrite (nth_error_store_same _ _ _ (set_value value o) Hr).
  cbn in Hprop. rewrite Hr in Hprop.
  destruct o; cbn; [reflexivity | reflexivity | discriminate Hprop].
Qed.

(** X21. [get_element] gives the wrapper itself when the name is bound to
    an [ElementProperty], where plain access gives its value; for a name
    bound to an [AttributeProperty], to any other value, or to nothing, it
    gives [None]. *)
Theorem get_element_cases (h : heap) (self : nat)
  (class_attrs vars : list (string * pyvalue)) (key : string) :
  nth_error h self = Some (OElementTree class_attrs vars) ->
  (forall r c t v,
      assoc key vars = Some (PyRef r) ->
      nth_error h r = Some (OElementProperty c t v) ->
      ElementTree_get_element h self key = PyRef r
      /\ ElementTree_getattribute h self key true = v)
  /\ (forall v,
         object_getattribute h self key = Some v ->
         is_element_property h v = false ->
         ElementTree_get_element h self key = PyNone)
  /\ (object_getattribute h self key = None ->
      ElementTree_get_element h self key = PyNone).
Proof.
  intros Hself.
  unfold ElementTree_get_element, ElementTree_getattribute.
  split; [|split].
  - intros r c t v Hkey Hr. unfold object_getattribute.
    rewrite Hself, Hkey. cbn. rewrite Hr. cbn. now rewrite Hr.
  - intros v Hv Hnot. rewrite Hv, andb_false_r. now rewrite Hnot.
  - intros Hv. now rewrite Hv.
Qed.

(** ** The round trip of a [VerticesProperty] *)

Lemma trimmed_head (s : string) :
  trimmed s -> exists c r, s = String c r /\ isspace c = false.
Proof.
  intros [Hne Hs]. pose proof (strip_head s) as H. rewrite Hs in H.
  destruct s as [|c r]; [congruence|]. eauto.
Qed.

Lemma lstrip_trimmed_app (a b : string) :
  trimmed a -> lstrip (a ++ b) = a ++ b.
Proof.
  intros Ha. destruct (trimmed_head _ Ha) as [c [r [-> Hc]]].
  cbn. now rewrite Hc.
Qed.

Lemma rstrip_trimmed (b : string) : trimmed b -> rstrip b = b.
Proof.
  intros Hb. pose proof (lstrip_trimmed_app b EmptyString Hb) as H.
  rewrite append_empty_r in H. destruct Hb as [_ Hs].
  unfold strip in Hs. now rewrite H in Hs.
Qed.

Lemma rstrip_app_trimmed (a b : string) :
  trimmed b -> rstrip (a ++ b) = a ++ b.
Proof.
  intros Hb. induction a as [|c a IH]; cbn [append].
  - now apply rstrip_trimmed.
  - cbn [rstrip]. rewrite IH.
    destruct (a ++ b) as [|d r] eqn:E; [|reflexivity].
    destruct Hb as [Hne _]. destruct a; cbn in E; congruence.
Qed.

Lemma trimmed_app (a m b : string) :
  trimmed a -> trimmed b -> trimmed (a ++ m ++ b).
Proof.
  intros Ha Hb. split.
  - destruct (trimmed_head _ Ha) as [c [r [-> _]]]. cbn. congruence.
  - unfold strip. rewrite (lstrip_trimmed_app _ _ Ha).
    rewrite <- append_assoc. now apply rstrip_app_trimmed.
Qed.

Lemma strip_around (w1 w2 s : string) :
  all_space w1 = true -> all_space w2 = true -> trimmed s ->
  strip (w1 ++ s ++ w2) = s.
Proof.
  intros H1 H2 [_ Hs]. rewrite <- Hs at 1. rewrite strip_padded; auto.
Qed.

Lemma contains_app (c : ascii) (a b : string) :
  contains c (a ++ b) = contains c a || contains c b.
Proof.
  induction a as [|d a IH]; cbn; [reflexivity|].
  now rewrite IH, orb_assoc.
Qed.

Lemma trimmed_join (x : string) (l : list string) :
  Forall trimmed (x :: l) -> trimmed (join nl (x :: l)).
Proof.
  revert x. induction l as [|y l IH]; intros x H.
  - now inversion H.
  - inversion H as [|? ? Hx Hl]; subst.
    change (join nl (x :: y :: l)) with (x ++ nl ++ join nl (y :: l)).
    apply trimmed_app; [exact Hx | now apply IH].
Qed.

Lemma vertex_line_text (v : Vector) : vertex_line v = vertex_text v ++ nl.
Proof.
  unfold vertex_line, vertex_text. now rewrite !append_assoc.
Qed.

Lemma written_vertices (v : Vector) (rest : list Vector) (acc : string) :
  fold_left (fun text vertex => text ++ vertex_line vertex) (v :: rest) acc
  = acc ++ join nl (map vertex_text (v :: rest)) ++ nl.
Proof.
  revert v acc. induction rest as [|w rest IH]; intros v acc.
  - cbn. now rewrite vertex_line_text.
  - cbn [fold_left]. cbn [fold_left] in IH. rewrite IH.
    change (join nl (map vertex_text (v :: w :: rest)))
      with (vertex_text v ++ nl ++ join nl (map vertex_text (w :: rest))).
    rewrite vertex_line_text, !append_assoc. reflexivity.
Qed.

Lemma vertex_text_trimmed (v : Vector) :
  Forall prints_as_token [vx v; vy v; vz v] -> trimmed (vertex_text v).
Proof.
  intros H. inversion H as [|? ? Hx H1]; subst.
  inversion H1 as [|? ? Hy H2]; subst. inversion H2 as [|? ? Hz _]; subst.
  unfold vertex_text.
  assert (E : str_float (vx v) ++ ", " ++ str_float (vy v) ++ ", "
              ++ str_float (vz v)
              = str_float (vx v) ++ (", " ++ str_float (vy v) ++ ", ")
                ++ str_float (vz v))
    by now rewrite !append_assoc.
  rewrite E. apply trimmed_app; [apply Hx | apply Hz].
Qed.

Lemma vertex_text_one_line (v : Vector) :
  Forall prints_as_token [vx v; vy v; vz v] ->
  contains newline (vertex_text v) = false.
Proof.
  intros H. inversion H as [|? ? Hx H1]; subst.
  inversion H1 as [|? ? Hy H2]; subst. inversion H2 as [|? ? Hz _]; subst.
  destruct Hx as (_ & _ & _ & _ & _ & Nx).
  destruct Hy as (_ & _ & _ & _ & _ & Ny).
  destruct Hz as (_ & _ & _ & _ & _ & Nz).
  unfold vertex_text. rewrite !contains_app, Nx, Ny, Nz. reflexivity.
Qed.

Lemma read_vertex_text (element : ET.Element) (v : Vector) :
  Forall prints_as_token [vx v; vy v; vz v] ->
  read_vertex element (vertex_text v) = Ok v.
Proof.
  intros H. pose proof (vertex_text_trimmed _ H) as [_ Hs].
  inversion H as [|? ? Hx H1]; subst.
  inversion H1 as [|? ? Hy H2]; subst. inversion H2 as [|? ? Hz _]; subst.
  destruct Hx as (Sx & Fx & _ & _ & Cx & _).
  destruct Hy as (Sy & _ & Fy & _ & Cy & _).
  destruct Hz as (Sz & _ & Fz & _ & Cz & _).
  transitivity (Ok (Vector_of (vx v) (vy v) (vz v))).
  - apply read_vertex_tokens
      with (c0 := str_float (vx v)) (c1 := " " ++ str_float (vy v))
           (c2 := " " ++ str_float (vz v)); try assumption.
    rewrite Hs. unfold vertex_text.
    change (", " ++ str_float (vy v) ++ ", " ++ str_float (vz v))
      with (String comma ((" " ++ str_float (vy v))
                          ++ String comma (" " ++ str_float (vz v)))).
    rewrite (split_app_separator _ _ _ Cx).
    rewrite split_app_separator by (cbn; exact Cy).
    rewrite split_no_separator by (cbn; exact Cz). reflexivity.
  - destruct v as [x y z]. cbn in *. unfold Vector_of.
    now rewrite Sx, Sy, Sz.
Qed.

Lemma read_vertices_text (element : ET.Element) (l : list Vector) :
  Forall (fun v => Forall prints_as_token [vx v; vy v; vz v]) l ->
  mapM (read_vertex element) (map vertex_text l) = Ok l.
Proof.
  induction l as [|w l IH]; intros Hl; [reflexivity|].
  inversion Hl as [|? ? Hw Hl']; subst. cbn [map mapM].
  rewrite (read_vertex_text _ _ Hw). cbn [bind]. now rewrite (IH Hl').
Qed.

(** X22. A list of vertices that is not empty is read back as it was
    written, when Python prints every component as one token that [float]
    reads back. With the empty list excluded this is the converse of what
    happens there. *)
Theorem VerticesProperty_round_trip (tag_name : string) (value : list Vector) :
  value <> [] ->
  Forall (fun v => Forall prints_as_token [vx v; vy v; vz v]) value ->
  VerticesProperty_from_xml (VerticesProperty_to_xml tag_name value)
  = Ok (VerticesProperty tag_name value).
Proof.
  intros Hne H. destruct value as [|v rest]; [congruence|].
  assert (Hlines : Forall trimmed (map vertex_text (v :: rest))).
  { apply Forall_map. eapply Forall_impl; [|exact H].
    intros w Hw. now apply vertex_text_trimmed. }
  assert (Hnl : Forall (fun x => contains newline x = false)
                  (map vertex_text (v :: rest))).
  { apply Forall_map. eapply Forall_impl; [|exact H].
    intros w Hw. now apply vertex_text_one_line. }
  unfold VerticesProperty_to_xml.
  rewrite written_vertices.
  erewrite VerticesProperty_from_xml_lines
    with (line := vertex_text v) (lines := map vertex_text rest);
    [|reflexivity|].
  - rewrite (read_vertices_text _ _ H). reflexivity.
  - rewrite strip_around; [|reflexivity|reflexivity|now apply trimmed_join].
    change nl with (String newline EmptyString).
    now apply split_join.
Qed.

(** ** When writing succeeds, and what reading installs *)

Lemma to_xml_ok_iff (o : obj) :
  ((exists e, to_xml o = Ok e) <-> lists_hold_instances o = true)
  /\ (forall err, to_xml o = Raise err -> err = TypeError).
Proof.
  revert o. fix IH 1. intros o.
  destruct o as [t v|t v|t v|lt t value|t v|t v|t v|c vars];
    try (split; [split; [reflexivity | cbn; eauto] | discriminate]).
  - rewrite to_xml_ListProperty. cbn [lists_hold_instances].
    generalize (ET.new t []) as element.
    induction value as [|item rest IHl]; intros element.
    + split; [split; [reflexivity | cbn; eauto] | discriminate].
    + destruct (IH item) as [[Hok Hko] Herr].
      specialize (IHl). cbn [write_items forallb].
      destruct (is_instance item lt); cbn [andb];
        [|split; [split; [intros [e He]; discriminate He | discriminate]
                 | intros err He; now injection He as <-]].
      destruct (to_xml item) as [x|e0] eqn:Ex; cbn [bind].
      * rewrite (Hok (ex_intro _ x eq_refl)). cbn [andb]. apply IHl.
      * split.
        -- split; [intros [e He]; discriminate He|].
           intros H. apply andb_true_iff in H as [H _].
           apply Hko in H as [e He]. discriminate He.
        -- intros err He. injection He as <-. now apply Herr.
  - rewrite to_xml_ElementTree. cbn [lists_hold_instances].
    generalize (ET.new (cls_tag c) []) as root.
    induction vars as [|[p f] rest IHl]; intros root.
    + split; [split; [reflexivity | cbn; eauto] | discriminate].
    + cbn [write_fields forallb]. destruct f as [d|n v|v]; cbn [andb].
      * destruct (IH d) as [[Hok Hko] Herr].
        destruct (to_xml d) as [x|e0] eqn:Ex; cbn [bind].
        -- rewrite (Hok (ex_intro _ x eq_refl)). cbn [andb]. apply IHl.
        -- split.
           ++ split; [intros [e He]; discriminate He|].
              intros H. apply andb_true_iff in H as [H _].
              apply Hko in H as [e He]. discriminate He.
           ++ intros err He. injection He as <-. now apply Herr.
      * apply IHl.
      * apply IHl.
Qed.


Lemma write_items_refused (list_type : cls) (items : list obj) :
  (exists item, In item items /\ is_instance item list_type = false) ->
  forall element, write_items list_type items element = Raise TypeError.
Proof.
  induction items as [|first rest IH]; intros [item [Hin Hno]] element;
    [easy|].
  cbn [write_items]. destruct (is_instance first list_type) eqn:Ei;
    [|reflexivity].
  destruct (to_xml first) as [x|err] eqn:Ex; cbn [bind].
  - apply IH. exists item. split; [|exact Hno].
    destruct Hin as [->|Hin]; [congruence | exact Hin].
  - now rewrite (proj2 (to_xml_ok_iff first) err Ex).
Qed.

(** X13. A [ListProperty] without items is written as an element without
    children, and an element without a child of the tag of the list type is
    read as a [ListProperty] without items; a list that holds, at any place,
    an item that is no instance of the list type makes the writer raise
    [TypeError]. *)
Theorem ListProperty_empty (list_type : cls) (t : string)
  (element : ET.Element) :
  to_xml (ListProperty list_type t []) = Ok (ET.new t [])
  /\ (ET.find (cls_tag list_type) element = None ->
      ListProperty_from_xml list_type element
      = Ok (ListProperty list_type (ET.tag element) []))
  /\ (forall value,
         (exists item, In item value /\ is_instance item list_type = false) ->
         to_xml (ListProperty list_type t value) = Raise TypeError).
Proof.
  split; [reflexivity|]. split.
  - intros H. unfold ListProperty_from_xml, ET.findall.
    unfold ET.find in H.
    assert (E : filter (fun c => String.eqb (ET.tag c) (cls_tag list_type))
                  (ET.children element) = []).
    { induction (ET.children element) as [|k ks IH]; [reflexivity|].
      cbn in *. destruct (String.eqb (ET.tag k) (cls_tag list_type));
        [discriminate H | now apply IH]. }
    now rewrite E.
  - intros value H. rewrite to_xml_ListProperty.
    now apply write_items_refused.
Qed.

Lemma read_fields_installs (tag : string) (element : ET.Element)
  (items vars : list (string * field)) (p : string) (d : obj)
  (child : ET.Element) :
  read_fields tag element items = Ok vars ->
  In (p, FElement d) items ->
  ET.find (tag_name_of d) element = Some child ->
  exists o, from_xml_as d child = Ok o /\ In (p, FElement o) vars.
Proof.
  revert vars. induction items as [|[q f] rest IH]; intros vars H Hin Hc;
    [easy|].
  cbn [read_fields] in H.
  destruct (read_field tag element f) as [g|] eqn:Eg; [|discriminate H].
  cbn [bind] in H.
  destruct (read_fields tag element rest) as [xs|] eqn:Er; [|discriminate H].
  cbn [bind] in H. injection H as <-. destruct Hin as [Hin|Hin].
  - injection Hin as -> ->. cbn [read_field] in Eg. rewrite Hc in Eg.
    assert (Et : String.eqb (tag_name_of d) (ET.tag child) = true).
    { unfold ET.find in Hc. apply find_some in Hc as [_ Hc].
      now rewrite String.eqb_sym. }
    rewrite Et in Eg.
    destruct (from_xml_as d child) as [o|]; [|discriminate Eg].
    cbn [bind] in Eg. injection Eg as <-. exists o. split; [reflexivity|].
    now left.
  - destruct (IH xs eq_refl Hin Hc) as [o [Ho Hio]]. exists o.
    split; [exact Ho | now right].
Qed.

(** X24. A child that is present is never skipped. When reading returns an
    instance, every attribute that is an element and has a child of its tag
    in the element was read from the first such child by the reader of its
    class, and the result stands under the same name; so a child that its
    reader refuses makes the whole read fail. *)
Theorem from_xml_installs_children (c : cls) (element : ET.Element)
  (vars : list (string * field)) (p : string) (d : obj) (child : ET.Element) :
  ElementTree_from_xml c element = Ok (ElementTree c vars) ->
  In (p, FElement d) (cls_init c) ->
  ET.find (tag_name_of d) element = Some child ->
  exists o, from_xml_as d child = Ok o /\ In (p, FElement o) vars.
Proof.
  rewrite ElementTree_from_xml_unfold. intros H.
  destruct (read_fields (cls_tag c) element (cls_init c)) as [xs|] eqn:E;
    [|discriminate H].
  cbn [bind] in H. injection H as <-.
  now apply (read_fields_installs _ _ _ _ _ _ _ E).
Qed.

(** ** The second pass of the pretty-printer *)

Lemma contains_lstrip (c : ascii) (s : string) :
  contains c (lstrip s) = true -> contains c s = true.
Proof.
  induction s as [|d s IH]; cbn; [easy|].
  destruct (isspace d); [|easy].
  intros H. rewrite (IH H). apply orb_true_r.
Qed.

Lemma contains_rstrip (c : ascii) (s : string) :
  contains c (rstrip s) = true -> contains c s = true.
Proof.
  induction s as [|d s IH]; cbn; [easy|].
  destruct (is_empty (rstrip s) && isspace d); cbn; [easy|].
  intros H. apply orb_true_iff in H as [H|H].
  - now rewrite H.
  - rewrite (IH H). apply orb_true_r.
Qed.

Lemma contains_strip (c : ascii) (s : string) :
  contains c (strip s) = true -> contains c s = true.
Proof. intros H. now apply contains_lstrip, contains_rstrip. Qed.

Lemma strip_idempotent (s : string) : strip (strip s) = strip s.
Proof.
  pose proof (strip_padded EmptyString EmptyString s eq_refl eq_refl) as H.
  cbn [append] in H. now rewrite append_empty_r in H.
Qed.

Lemma contains_times (n : nat) : contains newline (times n amount) = false.
Proof. induction n; cbn; auto. Qed.

Lemma join_head_char (sep : string) (c : ascii) (h : string)
  (l : list string) :
  join sep (String c h :: l) = String c (join sep (h :: l)).
Proof. destruct l; reflexivity. Qed.

Lemma join_head_app (sep a h : string) (l : list string) :
  join sep ((a ++ h) :: l) = a ++ join sep (h :: l).
Proof. destruct l; cbn [join]; [reflexivity | apply append_assoc]. Qed.

(** The lines of a string, all but the first behind [p], make the string
    with [p] after each newline. *)
Lemma join_split_prefixed (p s : string) :
  match split newline s with
  | h :: t => join nl (h :: map (fun line => p ++ line) t)
              = after_newlines p s
  | [] => False
  end.
Proof.
  induction s as [|c s IH]; [reflexivity|].
  cbn [split after_newlines]. destruct (Ascii.eqb c newline) eqn:E.
  - apply Ascii.eqb_eq in E. subst c.
    destruct (split newline s) as [|h t]; [easy|].
    cbn [map].
    change (join nl (EmptyString
                     :: (p ++ h) :: map (fun line => p ++ line) t))
      with (EmptyString ++ nl
            ++ join nl ((p ++ h) :: map (fun line => p ++ line) t)).
    rewrite join_head_app, IH. reflexivity.
  - destruct (split newline s) as [|h t]; [easy|].
    now rewrite join_head_char, IH.
Qed.

Lemma join_prefixed_lines (p s : string) :
  join nl (map (fun line => p ++ line) (split newline s))
  = p ++ after_newlines p s.
Proof.
  pose proof (join_split_prefixed p s) as H.
  destruct (split newline s) as [|h t]; [easy|].
  cbn [map]. now rewrite join_head_app, H.
Qed.

Lemma contains_after_newlines (p s : string) :
  contains newline s = true -> contains newline (after_newlines p s) = true.
Proof.
  induction s as [|c s IH]; cbn [contains after_newlines]; [easy|].
  destruct (Ascii.eqb c newline) eqn:E; cbn [contains orb]; rewrite E;
    [easy|].
  exact IH.
Qed.

Lemma rstrip_app_kept (a b : string) :
  b <> EmptyString -> rstrip b = b -> rstrip (a ++ b) = a ++ b.
Proof.
  intros Hne Hb. induction a as [|c a IH]; cbn [append]; [exact Hb|].
  cbn [rstrip]. rewrite IH.
  destruct (a ++ b) as [|d r] eqn:E; [|reflexivity].
  destruct a; cbn in E; congruence.
Qed.

Lemma rstrip_after_newlines (p s : string) :
  s <> EmptyString -> rstrip s = s ->
  after_newlines p s <> EmptyString
  /\ rstrip (after_newlines p s) = after_newlines p s.
Proof.
  induction s as [|c s IH]; [easy|]. intros _ H. cbn [rstrip] in H.
  destruct (is_empty (rstrip s) && isspace c) eqn:E; [discriminate H|].
  injection H as H.
  split; [cbn [after_newlines]; destruct (Ascii.eqb c newline); congruence|].
  destruct s as [|d s'].
  - cbn [rstrip is_empty andb] in E. cbn [after_newlines].
    destruct (Ascii.eqb c newline) eqn:En.
    + apply Ascii.eqb_eq in En. subst c. vm_compute in E. discriminate E.
    + cbn [rstrip is_empty andb]. now rewrite E.
  - destruct IH as [Hne Hr]; [congruence | exact H |].
    remember (String d s') as rest eqn:Erest.
    cbn [after_newlines].
    destruct (Ascii.eqb c newline).
    + change (String c (p ++ after_newlines p rest))
        with (String c p ++ after_newlines p rest).
      now apply rstrip_app_kept.
    + change (String c (after_newlines p rest))
        with (String c EmptyString ++ after_newlines p rest).
      now apply rstrip_app_kept.
Qed.

Lemma trimmed_after_newlines (p s : string) :
  trimmed s -> trimmed (after_newlines p s).
Proof.
  intros Hs. destruct (trimmed_head _ Hs) as [c [r [E Hc]]].
  destruct (rstrip_after_newlines p s) as [Hne Hr];
    [apply Hs | now apply rstrip_trimmed |].
  split; [exact Hne|]. unfold strip.
  assert (Hl : lstrip (after_newlines p s) = after_newlines p s).
  { subst s. cbn [after_newlines].
    destruct (Ascii.eqb c newline); cbn; now rewrite Hc. }
  now rewrite Hl.
Qed.

(** A text of several lines is still one after a pass. *)
Lemma indent_text_multi (level : nat) (x : string) :
  contains newline (strip x) = true ->
  exists x1,
    indent_text level (Some x) = Some x1
    /\ contains newline (strip x1) = true.
Proof.
  intros H.
  assert (Hs : trimmed (strip x)).
  { split; [|apply strip_idempotent].
    destruct (strip x); [discriminate H | congruence]. }
  assert (Hc : (negb (is_empty x) && (0 <? length (strip x))%nat
                && contains newline x) = true).
  { rewrite (contains_strip _ _ H).
    destruct x as [|c x]; [discriminate H|].
    destruct (strip (String c x)); [discriminate H | reflexivity]. }
  unfold indent_text. rewrite Hc. eexists. split; [reflexivity|].
  rewrite join_prefixed_lines. fold (margin level).
  set (p := times (level + 1) amount).
  assert (E : nl ++ (p ++ after_newlines p (strip x)) ++ margin level
              = (nl ++ p) ++ after_newlines p (strip x) ++ margin level)
    by now rewrite !append_assoc.
  rewrite E, strip_around.
  - now apply contains_after_newlines.
  - unfold p. cbn. apply all_space_times.
  - apply all_space_margin.
  - now apply trimmed_after_newlines.
Qed.

Lemma outside_multiline_retail (i : string) (e : ET.Element) :
  outside_multiline (retail i e) = retail i (outside_multiline e).
Proof. destruct e as [t a x y [|k c]]; reflexivity. Qed.

Lemma map_last_map {A : Type} (f g : A -> A) (l : list A) :
  (forall x, f (g x) = g (f x)) -> map f (map_last g l) = map_last g (map f l).
Proof.
  intros H. induction l as [|x [|y l] IH]; cbn [map_last map] in *.
  - reflexivity.
  - now rewrite H.
  - now rewrite IH.
Qed.

Lemma second_pass_outside_multiline (e : ET.Element) (level : nat) :
  outside_multiline (indent (indent e level) level)
  = outside_multiline (indent e level).
Proof.
  revert level.
  induction e as [t a x y c IH] using Element_ind_children. intros level.
  destruct c as [|child c].
  - cbn [indent outside_multiline]. f_equal.
    + destruct x as [s|]; [|reflexivity].
      destruct (contains newline (strip s)) eqn:E.
      * destruct (indent_text_multi level s E) as [x1 [-> H1]].
        destruct (indent_text_multi level x1 H1) as [x2 [-> H2]].
        now rewrite H1, H2.
      * rewrite indent_text_idempotent; [reflexivity | exact E].
    + fold (margin level). destruct level as [|level]; [reflexivity|].
      cbn [Nat.eqb negb andb]. apply refill_blank, blank_margin.
  - set (kids := child :: c) in *.
    assert (Hstep : indent (ET.mkElement t a x y kids) level
                    = ET.mkElement t a
                        (if blank x then Some (margin level ++ amount) else x)
                        (if blank y then Some (margin level) else y)
                        (map_last (retail (margin level))
                           (map (fun k => indent k (level + 1)) kids)))
      by reflexivity.
    rewrite Hstep.
    remember (map_last (retail (margin level))
                (map (fun k => indent k (level + 1)) kids)) as kids' eqn:Ek.
    assert (Hk' : kids' <> []).
    { subst kids'. apply map_last_nonempty. unfold kids. cbn. congruence. }
    destruct kids' as [|k1 ks]; [congruence|].
    cbn [indent]. fold (margin level).
    rewrite (refill_blank _ _ (blank_margin level)).
    rewrite (refill_blank _ _ (blank_margin_amount level)).
    assert (Hne : map_last (retail (margin level))
                    (map (fun child0 => indent child0 (level + 1)) (k1 :: ks))
                  <> []).
    { apply map_last_nonempty. cbn. congruence. }
    destruct (map_last (retail (margin level))
                (map (fun child0 => indent child0 (level + 1)) (k1 :: ks)))
      as [|j1 js] eqn:Ej; [congruence|].
    cbn [outside_multiline]. f_equal. rewrite <- Ej, Ek.
    replace (level + 1)%nat with (S level) by lia.
    rewrite !(map_last_map outside_multiline (retail (margin level)))
      by (intros k; apply outside_multiline_retail).
    rewrite (map_map_last (fun k => indent k (S level))
               (retail (margin level)))
      by (intros k; apply indent_retail, blank_margin).
    f_equal. rewrite !map_map. apply map_ext_in. intros k Hin.
    rewrite Forall_forall in IH. now apply IH.
Qed.

Lemma split_parts (sep : ascii) (s : string) :
  Forall (fun x => contains sep x = false) (split sep s).
Proof.
  induction s as [|c s IH]; cbn; [repeat constructor|].
  destruct (Ascii.eqb c sep) eqn:E; [now constructor|].
  destruct (split sep s) as [|h t]; [repeat constructor; cbn; now rewrite E|].
  inversion IH as [|? ? Hh Ht]; subst. constructor; [|exact Ht].
  cbn. now rewrite E.
Qed.

Lemma split_join_closed (sep : ascii) (x : string) (l : list string)
  (w : string) :
  Forall (fun x => contains sep x = false) (x :: l) ->
  contains sep w = false ->
  split sep (join (String sep EmptyString) (x :: l) ++ String sep w)
  = ((x :: l) ++ [w])%list.
Proof.
  intros H Hw. revert x H. induction l as [|y l IH]; intros x H.
  - inversion H as [|? ? Hx _]; subst. cbn [join app].
    rewrite (split_app_separator _ _ _ Hx).
    now rewrite (split_no_separator _ _ Hw).
  - inversion H as [|? ? Hx Hl]; subst.
    change (join (String sep EmptyString) (x :: y :: l))
      with (x ++ String sep EmptyString
              ++ join (String sep EmptyString) (y :: l)).
    rewrite !append_assoc. cbn [append].
    rewrite (split_app_separator _ _ _ Hx). cbn [app]. f_equal.
    now apply IH.
Qed.

Lemma indent_text_lines (level : nat) (x : string) :
  contains newline x = true -> strip x <> EmptyString ->
  exists x1,
    indent_text level (Some x) = Some x1
    /\ split newline x1
       = EmptyString
         :: (map (fun line => (times (level + 1) amount ++ line)%string)
               (split newline (strip x))
             ++ [times level amount])%list.
Proof.
  intros Hn Hs.
  assert (Hc : (negb (is_empty x) && (0 <? length (strip x))%nat
                && contains newline x) = true).
  { rewrite Hn. destruct x as [|c x]; [discriminate Hn|].
    destruct (strip (String c x)); [congruence | reflexivity]. }
  unfold indent_text. rewrite Hc. eexists. split; [reflexivity|].
  change (nl ++ ?a) with (String newline a).
  cbn [split]. rewrite Ascii.eqb_refl. f_equal.
  pose proof (split_parts newline (strip x)) as Hp.
  pose proof (split_nonempty newline (strip x)) as Hne.
  destruct (split newline (strip x)) as [|h t]; [congruence|].
  change nl with (String newline EmptyString).
  cbn [map append].
  apply (split_join_closed newline
           (times (level + 1) amount ++ h)
           (map (fun line => times (level + 1) amount ++ line) t)).
  - change (Forall (fun x0 => contains newline x0 = false)
              (map (fun line => times (level + 1) amount ++ line) (h :: t))).
    apply Forall_map. eapply Forall_impl; [|exact Hp].
    intros line Hl. cbn beta. now rewrite contains_app, contains_times, Hl.
  - apply contains_times.
Qed.

(** C4, as amended. For every element tree and level, a second pass of
    [indent] returns the tree the first pass returned, except in the text
    of the childless elements whose stripped text spans several lines; so
    it is a no-op on a tree without such an element. On a childless
    element whose text has a newline and is not blank, a pass keeps every
    line of the stripped text as it is, in order: the lines of the new text
    are an empty line, each old line behind the indent of the next level,
    and the indent of the level. *)
Theorem indent_second_pass (e : ET.Element) (level : nat) :
  outside_multiline (indent (indent e level) level)
  = outside_multiline (indent e level)
  /\ (one_line_leaves e = true ->
      indent (indent e level) level = indent e level)
  /\ (forall t a x y,
         contains newline x = true -> strip x <> EmptyString ->
         exists x1,
           ET.text (indent (ET.mkElement t a (Some x) y []) level) = Some x1
           /\ split newline x1
              = EmptyString
                :: (map (fun line => (times (level + 1) amount ++ line)%string)
                      (split newline (strip x))
                    ++ [times level amount])%list).
Proof.
  split; [apply second_pass_outside_multiline|]. split.
  - intros H. now apply indent_idempotent_below.
  - intros t a x y Hn Hs. cbn [indent ET.text].
    now apply indent_text_lines.
Qed.

End Codewalker.

(** * The theorems at concrete inputs

    The builtins are those of [Integral]. *)

Lemma get_str_type_false_literal_witness :
  lower "False" = "false"
  /\ @get_str_type Integral.builtins (PyStr "False") = PyBool true.
Proof.
  split; [reflexivity|].
  apply (@get_str_type_false_literal Integral.builtins "False"). reflexivity.
Defined.



Lemma ValueProperty_from_xml_missing_value_witness :
  ET.has "value" (ET.new "Radius" [("v", "1")]) = false
  /\ @ValueProperty_from_xml Integral.builtins (ET.new "Radius" [("v", "1")])
     = Raise (AttributeError
                "type object 'ValueError' has no attribute 'read_value_error'").
Proof.
  split; [reflexivity|].
  apply (@ValueProperty_from_xml_missing_value Integral.builtins). reflexivity.
Defined.

Lemma VerticesProperty_two_lines_witness :
  let value := [@Vector_of Integral.builtins 1%Z 2%Z 3%Z; @Vector_of Integral.builtins 4%Z 5%Z 6%Z] in
  let written :=
    ET.mkElement "Vertices" []
      (Some (nl ++ "1.0, 2.0, 3.0" ++ nl ++ "4.0, 5.0, 6.0" ++ nl)) None [] in
  @VerticesProperty_from_xml Integral.builtins
    (ET.mkElement "Vertices" []
       (Some ("1, 2, 3" ++ nl ++ "4, 5, 6" ++ nl)) None [])
  = Ok (VerticesProperty "Vertices" value)
  /\ VerticesProperty_to_xml "Vertices" value = written
  /\ VerticesProperty_from_xml written = Ok (VerticesProperty "Vertices" value).
Proof.
  apply (@VerticesProperty_two_lines Integral.builtins "Vertices" 1%Z 2%Z 3%Z 4%Z 5%Z 6%Z);
    reflexivity.
Defined.

Lemma VerticesProperty_blank_text_fails_witness :
  blank (ET.text (ET.mkElement "Vertices" [] (Some "  ") None [])) = true
  /\ exists e,
      @VerticesProperty_from_xml Integral.builtins
        (ET.mkElement "Vertices" [] (Some "  ") None [])
      = Raise e.
Proof.
  split; [reflexivity|].
  apply (proj1 (@VerticesProperty_blank_text_fails Integral.builtins)). reflexivity.
Defined.

Lemma ElementProperty_init_TypeError_witness :
  @truthy Integral.builtins (PyList []) = false
  /\ @ElementProperty_init Integral.builtins C_TextProperty "Name" (PyList [])
     = Ok (OElementProperty C_TextProperty "Name" (PyList [])).
Proof.
  split; [reflexivity|].
  apply (proj2 (@ElementProperty_init_TypeError Integral.builtins C_TextProperty "Name"
                  (PyList []))).
  reflexivity.
Defined.

Lemma ElementProperty_init_raises :
  @ElementProperty_init Integral.builtins C_TextProperty "Name" (PyInt 7) = Raise TypeError.
Proof. reflexivity. Qed.

Lemma getattribute_undefined_is_None_witness :
  @object_getattribute Integral.builtins small_heap 0 "bounds" = None
  /\ @ElementTree_getattribute Integral.builtins small_heap 0 "bounds" true = PyNone.
Proof.
  apply (@getattribute_undefined_is_None Integral.builtins small_heap 0
           [("tag_name", PyStr "Item")]
           [("name", PyRef 1); ("type", PyRef 2)] "bounds" true);
    reflexivity.
Defined.

Lemma setattr_replaces_stored_value_witness :
  (let h' := @ElementTree_setattr Integral.builtins small_heap 0 "name"
               (PyStr "prop_bush") in
   h' = store small_heap 1
          (OElementProperty C_TextProperty "Name" (PyStr "prop_bush"))
   /\ ElementTree_getattribute h' 0 "name" true = PyStr "prop_bush")
  /\ (let h' := @ElementTree_setattr Integral.builtins small_heap 0 "type"
                  (PyStr "12") in
      h' = store small_heap 2 (OAttributeProperty "type" (PyStr "12"))
      /\ ElementTree_getattribute h' 0 "type" true = PyInt 12).
Proof.
  pose proof (@setattr_replaces_stored_value Integral.builtins small_heap 0
                [("tag_name", PyStr "Item")]
                [("name", PyRef 1); ("type", PyRef 2)] "name" 1
                (OElementProperty C_TextProperty "Name" (PyStr "prop_tree"))
                (PyStr "prop_bush")
                eq_refl eq_refl eq_refl eq_refl eq_refl) as H.
  pose proof (@setattr_replaces_stored_value Integral.builtins small_heap 0
                [("tag_name", PyStr "Item")]
                [("name", PyRef 1); ("type", PyRef 2)] "type" 2
                (OAttributeProperty "type" (PyStr "CEntityDef"))
                (PyStr "12")
                eq_refl eq_refl eq_refl eq_refl eq_refl) as H'.
  cbv zeta in H, H'. split; cbv zeta.
  - split; [exact (proj1 H)|]. exact (proj2 (proj2 (proj2 (proj2 H)))).
  - split; [exact (proj1 H')|]. exact (proj2 (proj2 (proj2 (proj2 H')))).
Defined.

(** C7, as stated, fails: a string assigned to a field backed by an
    [AttributeProperty] is read as its coercion, here the integer 12 for
    the text of two digits. *)
Lemma attribute_access_is_not_the_assigned_value :
  @ElementTree_getattribute Integral.builtins
    (ElementTree_setattr small_heap 0 "type" (PyStr "12")) 0 "type" true
  <> PyStr "12".
Proof.
  change (@PyInt Integral.builtins 12 <> PyStr "12"). discriminate.
Qed.

(** Assigning a string to an attribute-backed field reads back coerced. *)
Lemma setattr_attribute_is_coerced :
  @ElementTree_getattribute Integral.builtins
    (ElementTree_setattr small_heap 0 "type" (PyStr "12")) 0 "type" true
  = PyInt 12.
Proof. reflexivity. Qed.

Lemma indent_leaf_untouched_witness :
  ET.text (indent (ET.mkElement "Name" [] (Some "prop_tree") None []) 2)
  = Some "prop_tree"
  /\ ET.tail (indent (ET.mkElement "Name" [] (Some "prop_tree") None []) 0)
     = None.
Proof.
  apply (indent_leaf_untouched "Name" [] (Some "prop_tree") None 2).
  reflexivity.
Defined.

Lemma get_str_type_stays_str_witness :
  "prop_tree" = "prop_tree" /\ lower "prop_tree" <> "true"
  /\ lower "prop_tree" <> "false"
  /\ (exists e, @py_int Integral.builtins "prop_tree" = Raise e)
  /\ (exists e, @py_float Integral.builtins "prop_tree" = Raise e).
Proof.
  apply (@get_str_type_stays_str Integral.builtins "prop_tree" "prop_tree").
  reflexivity.
Defined.

Lemma FlagsProperty_from_xml_total_witness :
  blank (ET.text (ET.new "Flags" [])) = true
  /\ @FlagsProperty_from_xml Integral.builtins (ET.new "Flags" [])
     = Ok (FlagsProperty "Flags" []).
Proof.
  split; [reflexivity|].
  apply (proj2 (@FlagsProperty_from_xml_total Integral.builtins
                  (ET.new "Flags" []))).
  reflexivity.
Defined.


Lemma FlagsProperty_blank_flag_lost_witness :
  @FlagsProperty_from_xml Integral.builtins
    (FlagsProperty_to_xml "Flags" [" "])
  = Ok (FlagsProperty "Flags" []).
Proof.
  apply (@FlagsProperty_blank_flag_lost Integral.builtins "Flags" " ").
  reflexivity.
Defined.

Lemma VectorProperty_round_trip_witness :
  @VectorProperty_from_xml Integral.builtins
    (VectorProperty_to_xml "position" (@mkVector Integral.builtins 1%Z 2%Z 3%Z))
  = Ok (VectorProperty "position" (@mkVector Integral.builtins 1%Z 2%Z 3%Z)).
Proof.
  apply (@VectorProperty_round_trip Integral.builtins "position"
           (@mkVector Integral.builtins 1%Z 2%Z 3%Z)).
  repeat constructor.
Defined.

Lemma QuaternionProperty_round_trip_witness :
  @QuaternionProperty_from_xml Integral.builtins
    (QuaternionProperty_to_xml "rotation"
       (@mkQuaternion Integral.builtins 1%Z 0%Z 0%Z 0%Z))
  = Ok (QuaternionProperty "rotation"
          (@Quaternion_of Integral.builtins 0%Z 0%Z 0%Z 1%Z)).
Proof.
  apply (@QuaternionProperty_round_trip Integral.builtins "rotation"
           (@mkQuaternion Integral.builtins 1%Z 0%Z 0%Z 0%Z)).
  repeat constructor.
Defined.

Lemma missing_component_ValueError_witness :
  ET.has "z" (ET.new "position" [("x", "1"); ("y", "2")]) = false
  /\ @VectorProperty_from_xml Integral.builtins
       (ET.new "position" [("x", "1"); ("y", "2")])
     = Raise (ValueError
                "Invalid XML element '<position />' for type 'VectorProperty'!").
Proof.
  split; [reflexivity|].
  apply (proj1 (@missing_component_ValueError Integral.builtins
                  (ET.new "position" [("x", "1"); ("y", "2")]) "z"
                  eq_refl)).
  cbn. auto.
Defined.

Lemma ElementTree_to_xml_shape_witness :
  exists e,
    @to_xml Integral.builtins object_text by_name
      (ElementTree Portal portal_vars)
    = Ok e
    /\ ET.tag e = "Item" /\ ET.attrib e = [("type", "CPortal")]
    /\ List.length (ET.children e) = 2.
Proof.
  eexists. split; [reflexivity|].
  pose proof (@ElementTree_to_xml_shape Integral.builtins object_text by_name
                Portal portal_vars _ eq_refl) as H.
  split; [exact (proj1 H)|]. split; reflexivity.
Defined.

Lemma to_xml_tag_witness :
  exists e,
    @to_xml Integral.builtins object_text by_name
      (FlagsProperty "Flags" ["A"])
    = Ok e
    /\ ET.tag e = "Flags".
Proof.
  eexists. split; [reflexivity|].
  exact (@to_xml_tag Integral.builtins object_text by_name
           (FlagsProperty "Flags" ["A"]) _ eq_refl).
Defined.

Lemma from_xml_keeps_layout_witness :
  exists o vars,
    @ElementTree_from_xml Integral.builtins Entity wrong_root = Ok o
    /\ o = ElementTree Entity vars
    /\ map fst vars = ["type"; "archetype_name"; "position"].
Proof.
  destruct (@from_xml_keeps_layout Integral.builtins Entity wrong_root _
              eq_refl) as [vars [Ho [Hn _]]].
  eexists. exists vars. split; [reflexivity|]. split; [exact Ho | exact Hn].
Defined.

Lemma from_xml_reads_attributes_witness :
  exists o,
    @ElementTree_from_xml Integral.builtins Entity
      (ET.new "Item" [("type", "CMloInstanceDef")]) = Ok o
    /\ attributes (vars_of o)
       = [("type", ("type", PyStr "CMloInstanceDef"))].
Proof.
  eexists. split; [reflexivity|].
  exact (@from_xml_reads_attributes Integral.builtins Entity
           (ET.new "Item" [("type", "CMloInstanceDef")]) _ eq_refl eq_refl).
Defined.

Lemma from_xml_absent_children_witness :
  exists vars,
    @ElementTree_from_xml Integral.builtins Entity (ET.new "Item" [])
    = Ok (ElementTree Entity vars)
    /\ elements vars = elements (cls_init Entity).
Proof.
  apply (@from_xml_absent_children Integral.builtins Entity (ET.new "Item" [])).
  intros p d _. reflexivity.
Defined.

Lemma ElementTree_round_trip_witness :
  exists e,
    @to_xml Integral.builtins object_text by_name
      (ElementTree Portal portal_vars)
    = Ok e
    /\ @ElementTree_from_xml Integral.builtins Portal e
       = Ok (ElementTree Portal portal_vars).
Proof.
  apply (@ElementTree_round_trip Integral.builtins object_text by_name Portal
           portal_vars).
  - repeat (constructor;
            [split; [reflexivity|]; cbn;
             first [ split; [reflexivity | reflexivity]
                   | split; [reflexivity
                            | eexists; split; reflexivity] ]|]).
    constructor.
  - cbn. repeat constructor; cbn; intuition discriminate.
  - cbn. repeat constructor; cbn; intuition.
Defined.

Lemma init_establishes_value_type_witness :
  exists stored,
    @init Integral.builtins C_FlagsProperty "Flags" PyNone
    = Ok (OElementProperty C_FlagsProperty "Flags" stored)
    /\ isinstance stored (value_types C_FlagsProperty) = true
    /\ stored = PyList [].
Proof.
  destruct (@init_establishes_value_type Integral.builtins C_FlagsProperty
              "Flags" PyNone _ ltac:(discriminate) eq_refl)
    as [stored [Ho [Hi [_ Hd]]]].
  exists stored. split; [|split; [exact Hi|]].
  - injection Ho as <-. reflexivity.
  - specialize (Hd eq_refl). now injection Hd as <-.
Defined.

Lemma setattr_rebinds_witness :
  @ElementTree_getattribute Integral.builtins
    (ElementTree_setattr small_heap 0 "lod_dist" (PyInt 60)) 0 "lod_dist" false
  = PyInt 60.
Proof.
  exact (proj1 (proj2 (@setattr_rebinds Integral.builtins small_heap 0
                         [("tag_name", PyStr "Item")]
                         [("name", PyRef 1); ("type", PyRef 2)]
                         "lod_dist" (PyInt 60) eq_refl
                         (or_intror eq_refl)))).
Defined.

Lemma setattr_seen_through_alias_witness :
  @ElementTree_getattribute Integral.builtins
    (ElementTree_setattr shared_heap 0 "name" (PyStr "prop_bush")) 1 "label"
    true
  = PyStr "prop_bush".
Proof.
  exact (@setattr_seen_through_alias Integral.builtins shared_heap 0
           [] [("name", PyRef 2)] "name" 2
           (OElementProperty C_TextProperty "Name" (PyStr "prop_tree"))
           (PyStr "prop_bush") 1 [] [("label", PyRef 2)] "label"
           eq_refl eq_refl eq_refl eq_refl eq_refl eq_refl eq_refl).
Defined.

Lemma get_element_cases_witness :
  @ElementTree_get_element Integral.builtins small_heap 0 "name" = PyRef 1
  /\ @ElementTree_getattribute Integral.builtins small_heap 0 "name" true
     = PyStr "prop_tree".
Proof.
  exact (proj1 (@get_element_cases Integral.builtins small_heap 0
                  [("tag_name", PyStr "Item")]
                  [("name", PyRef 1); ("type", PyRef 2)] "name" eq_refl)
           1 C_TextProperty "Name" (PyStr "prop_tree") eq_refl eq_refl).
Defined.

Lemma VerticesProperty_round_trip_witness :
  @VerticesProperty_from_xml Integral.builtins
    (VerticesProperty_to_xml "Vertices"
       [@mkVector Integral.builtins 1%Z 2%Z 3%Z; @mkVector Integral.builtins 4%Z 5%Z 6%Z])
  = Ok (VerticesProperty "Vertices"
          [@mkVector Integral.builtins 1%Z 2%Z 3%Z;
           @mkVector Integral.builtins 4%Z 5%Z 6%Z]).
Proof.
  apply (@VerticesProperty_round_trip Integral.builtins "Vertices"
           [@mkVector Integral.builtins 1%Z 2%Z 3%Z;
            @mkVector Integral.builtins 4%Z 5%Z 6%Z]).
  - discriminate.
  - repeat constructor; discriminate.
Defined.

Lemma from_xml_installs_children_witness :
  exists o,
    @from_xml_as Integral.builtins
      (VectorProperty "position" zero_vector)
      (ET.mkElement "position" [("x", "1"); ("y", "2"); ("z", "3")]
         None None [])
    = Ok o
    /\ In ("position", FElement o)
         [("type", FAttribute "type" (PyStr "CEntityDef"));
          ("archetype_name",
           FElement (TextProperty "archetypeName" EmptyString));
          ("position",
           FElement (VectorProperty "position"
                       (@mkVector Integral.builtins 1%Z 2%Z 3%Z)))].
Proof.
  apply (@from_xml_installs_children Integral.builtins Entity wrong_root
           _ "position" (VectorProperty "position" zero_vector)
           (ET.mkElement "position" [("x", "1"); ("y", "2"); ("z", "3")]
              None None [])).
  - reflexivity.
  - cbn. auto.
  - reflexivity.
Defined.

Lemma indent_second_pass_witness :
  (one_line_leaves small_tree = true
   /\ indent (indent small_tree 0) 0 = indent small_tree 0)
  /\ exists x1,
       ET.text (indent two_line_leaf 0) = Some x1
       /\ split newline x1
          = [EmptyString; "  1, 2, 3"; "  4, 5, 6"; EmptyString].
Proof.
  pose proof (indent_second_pass small_tree 0) as [_ [H _]].
  pose proof (indent_second_pass small_tree 0) as [_ [_ H']].
  split; [split; [reflexivity | exact (H eq_refl)]|].
  apply (H' "Vertices" [] ("1, 2, 3" ++ nl ++ "4, 5, 6") None).
  - reflexivity.
  - discriminate.
Defined.

Lemma ListProperty_empty_witness :
  ET.find (cls_tag (@Entity Integral.builtins)) (ET.new "entities" []) = None
  /\ @ListProperty_from_xml Integral.builtins Entity (ET.new "entities" [])
     = Ok (ListProperty Entity "entities" [])
  /\ @to_xml Integral.builtins object_text by_name
       (ListProperty Entity "entities"
          [ElementTree Entity (cls_init Entity);
           ElementTree Portal portal_vars])
     = Raise TypeError.
Proof.
  pose proof (@ListProperty_empty Integral.builtins object_text by_name
                Entity "entities" (ET.new "entities" [])) as [_ [H H']].
  split; [reflexivity|]. split; [exact (H eq_refl)|].
  apply H'. exists (ElementTree Portal portal_vars).
  split; [cbn; auto | reflexivity].
Defined.
